(** * icetop_muons: feature extraction and run averaging

    A shallow embedding of the two scripts of the repository,

    - [NN_data.py]: [process_showers] and [avg_runs];
    - [neural_network_data.py]: [process_shower], which appends to the
      module-level list [NNdata400];

    and the properties of the specification proved (or refuted) on them.

    Numbers.  The scripts are duck-typed Python 2: the running sums start
    at the float literal [0.] and every arithmetic step is whatever [+],
    [*], [/], [np.abs] and the comparisons do on the values stored in the
    shower records.  The embedding is therefore written once over an
    interface [Num] of exactly those operations, with two instances:
    [binary64], IEEE 754 double precision (what a Python float is), on the
    kernel's primitive floats; and [rational], exact arithmetic on
    canonical rationals, the idealisation in which the specification
    reasons about means.

    Errors.  Indexing a sequence out of range raises [IndexError] and a
    float division by zero raises [ZeroDivisionError]; these are the only
    exceptions the modelled code can raise on a well-typed record.  The
    scripts define no exception class of their own. *)

From Stdlib Require Import ZArith QArith Qabs Qcanon Floats.
From stdpp Require Import base option numbers list gmap strings.

Set Warnings "-inexact-float".
Set Default Proof Using "Type".

(** ** Exceptions and the error monad *)

Inductive exn : Set :=
| IndexError
| ZeroDivisionError.

Inductive res (A : Type) : Type :=
| OK (a : A)
| Raise (e : exn).

Arguments OK {A} a.
Arguments Raise {A} e.

#[global] Instance res_ret : MRet res := fun _ a => OK a.

#[global] Instance res_bind : MBind res := fun _ _ k m =>
  match m with
  | OK a => k a
  | Raise e => Raise e
  end.

(** [l[i]] for [i >= 0]: the element, or [IndexError] past the end. *)
Definition index {A : Type} (l : list A) (i : nat) : res A :=
  match l !! i with
  | Some x => OK x
  | None => Raise IndexError
  end.

(** [for x in l: s = f(s, x)], stopping at the first exception. *)
Fixpoint for_each {A S : Type} (f : S -> A -> res S) (l : list A) (s : S) : res S :=
  match l with
  | [] => OK s
  | x :: l' => s' ← f s x; for_each f l' s'
  end.

(** ** The arithmetic the scripts use *)

Class Num : Type := {
  num : Type;
  lit_0 : num;      (* the literals [0.] and [0] *)
  lit_1 : num;      (* [1.] *)
  lit_400 : num;    (* [400], the cut distance *)
  lit_0_6 : num;    (* [0.6] *)
  lit_2_0 : num;    (* [2.0] *)
  n_add : num -> num -> num;
  n_mul : num -> num -> num;
  n_quot : num -> num -> num;   (* [x / y] for a divisor that is not zero *)
  n_abs : num -> num;           (* [np.abs] *)
  n_le : num -> num -> bool;    (* [x <= y] *)
  n_lt : num -> num -> bool;    (* [x < y] *)
  n_eq : num -> num -> bool;    (* [x == y] *)
}.

Section Operators.
Context {N : Num}.

Definition n_ge (x y : num) : bool := n_le y x.       (* [x >= y] *)
Definition n_gt (x y : num) : bool := n_lt y x.       (* [x > y] *)
Definition n_ne (x y : num) : bool := negb (n_eq x y). (* [x != y] *)

(** [x / y]: a Python float division raises [ZeroDivisionError] on a zero
    divisor, and is the quotient otherwise. *)
Definition n_div (x y : num) : res num :=
  if n_eq y lit_0 then Raise ZeroDivisionError else OK (n_quot x y).

(** The value of a float counter after [n] executions of [c += 1.]. *)
Fixpoint count_up (n : nat) : num :=
  match n with
  | O => lit_0
  | S n' => n_add (count_up n') lit_1
  end.

(** Left-to-right summation from [0.], the way a [+=] loop adds. *)
Definition fsum (l : list num) : num := foldl n_add lit_0 l.

(** Reading a sequence where the index is known to be in range. *)
Definition at_ (l : list num) (i : nat) : num := default lit_0 (l !! i).
End Operators.

(** IEEE 754 binary64: Python's [float]. *)
Definition binary64 : Num := {|
  num := float;
  lit_0 := 0%float;
  lit_1 := 1%float;
  lit_400 := 400%float;
  lit_0_6 := 0.6%float;
  lit_2_0 := 2%float;
  n_add := PrimFloat.add;
  n_mul := PrimFloat.mul;
  n_quot := PrimFloat.div;
  n_abs := PrimFloat.abs;
  n_le := PrimFloat.leb;
  n_lt := PrimFloat.ltb;
  n_eq := PrimFloat.eqb;
|}.

(** Exact rational arithmetic. *)
Definition rational : Num := {|
  num := Qc;
  lit_0 := Q2Qc 0;
  lit_1 := Q2Qc 1;
  lit_400 := Q2Qc 400;
  lit_0_6 := Q2Qc (3 # 5);
  lit_2_0 := Q2Qc 2;
  n_add := Qcplus;
  n_mul := Qcmult;
  n_quot := Qcdiv;
  n_abs := fun x => Q2Qc (Qabs x);
  n_le := fun x y => bool_decide (Qcle x y);
  n_lt := fun x y => bool_decide (Qclt x y);
  n_eq := fun x y => bool_decide (x = y);
|}.

(** A number system counts faithfully when a counter that was incremented
    at least once is not zero. *)
Definition counts (N : Num) : Prop :=
  forall n : nat, n_eq (count_up (S n)) lit_0 = false.

(** A binary64 value that is positive: finite and positive, or [+inf]. *)
Definition positive_SF (x : spec_float) : Prop :=
  match x with
  | S754_finite false _ _ | S754_infinity false => True
  | _ => False
  end.

(** ** Shower records

    [shower.Run], [shower.Reconstruction.*], [shower.Primary.Type] and the
    parallel per-detector sequences [shower.Signals.*].  Only the length of
    [Signals.Tank] is used; the station numbers themselves are not. *)

Module Reconstruction.
Record t {N : Num} : Type := {
  Energy : num;
  E_Proton : num;
  E_Iron : num;
  zen : num;
}.
End Reconstruction.

Module Primary.
Record t : Type := { Type_ : string }.
End Primary.

Module Signals.
Record t {N : Num} : Type := {
  Tank : list Z;
  LatDist : list num;
  TotalPE : list num;
  TotalVEM : list num;
  MuonPE : list num;
  nMuons : list num;
  TimeDelay : list num;
}.
End Signals.

Record Shower {N : Num} : Type := {
  Run : Z;
  Reconstruction : Reconstruction.t;
  Primary : Primary.t;
  Signals : Signals.t;
}.

(** ** NN_data.py *)

Module NN_data.

(** A row [[Run, Energy, Zen, TimeDelay, Q, MuonVEM, nMuons, Type]]; the
    fields are the positions [0] to [7] that [avg_runs] reads. *)
Module FeatureRow.
Record t {N : Num} : Type := {
  Run : Z;
  Energy : num;
  Zen : num;
  TimeDelay : num;
  Q : num;
  MuonVEM : num;
  nMuons : num;
  Type_ : string;
}.
End FeatureRow.

(** The four running sums of one shower. *)
Record sums {N : Num} : Type := {
  TimeDelay : num;
  Q : num;
  MuonVEM : num;
  nMuons : num;
}.

(** The running totals of one run in [avg_runs]. *)
Record totals {N : Num} : Type := {
  nShowers : num;
  Energy_tot : num;
  Zen_tot : num;
  TimeDelay_tot : num;
  Q_tot : num;
  MuonVEM_tot : num;
  nMuons_tot : num;
}.

Section Code.
Context {N : Num}.

Definition cut_dist : num := lit_400.

(** Lines 24-33: the body of the loop over the detectors. *)
Definition detector (shower : Shower) (s : sums) (i : nat) : res sums :=
  let sig := Signals shower in
  latDist ← index (Signals.LatDist sig) i;
  selected ←
    (if n_ge latDist cut_dist
     then pe ← index (Signals.TotalPE sig) i; mret (n_ne pe lit_0)
     else mret false);
  if selected : bool then
    totalVEM ← index (Signals.TotalVEM sig) i;
    totalPE ← index (Signals.TotalPE sig) i;
    scale ← n_div totalVEM totalPE;
    muonPE ← index (Signals.MuonPE sig) i;
    let scaledPE := n_mul scale muonPE in
    n ← index (Signals.nMuons sig) i;
    let nMuons' := n_add (nMuons s) n in
    let MuonVEM' := n_add (MuonVEM s) scaledPE in
    if n_ge totalVEM lit_0_6 && n_le totalVEM lit_2_0 then
      timeDelay ← index (Signals.TimeDelay sig) i;
      mret {| TimeDelay := n_add (TimeDelay s) (n_abs timeDelay);
              Q := n_add (Q s) totalVEM;
              MuonVEM := MuonVEM';
              nMuons := nMuons' |}
    else
      mret {| TimeDelay := TimeDelay s;
              Q := Q s;
              MuonVEM := MuonVEM';
              nMuons := nMuons' |}
  else mret s.

(** Lines 17-33: the sums start at [0.] and the loop runs over
    [range(len(shower.Signals.Tank))]. *)
Definition shower_sums (shower : Shower) : res sums :=
  for_each (detector shower)
    (seq 0 (length (Signals.Tank (Signals shower))))
    {| TimeDelay := lit_0; Q := lit_0; MuonVEM := lit_0; nMuons := lit_0 |}.

(** Lines 10-35: the row of one shower. *)
Definition shower_row (shower : Shower) : res FeatureRow.t :=
  let Run := Run shower in
  let Energy := Reconstruction.Energy (Reconstruction shower) in
  let Zen := Reconstruction.zen (Reconstruction shower) in
  let Type_ := Primary.Type_ (Primary shower) in
  s ← shower_sums shower;
  mret {| FeatureRow.Run := Run; FeatureRow.Energy := Energy; FeatureRow.Zen := Zen;
          FeatureRow.TimeDelay := TimeDelay s; FeatureRow.Q := Q s;
          FeatureRow.MuonVEM := MuonVEM s; FeatureRow.nMuons := nMuons s;
          FeatureRow.Type_ := Type_ |}.

Definition process_showers (showers : list Shower) : res (list FeatureRow.t) :=
  for_each (fun List_ shower => row ← shower_row shower; mret (List_ ++ [row]))
    showers [].

(** Lines 43-45: the set of the run numbers. *)
Definition run_list (List_ : list FeatureRow.t) : gset Z :=
  foldl (fun runs shower => runs ∪ {[ FeatureRow.Run shower ]}) ∅ List_.

(** Lines 48-63: the totals of the rows of [Run]. *)
Definition run_totals (List_ : list FeatureRow.t) (Run : Z) : totals :=
  foldl
    (fun t shower =>
       if decide (FeatureRow.Run shower = Run) then
         {| nShowers := n_add (nShowers t) lit_1;
            Energy_tot := n_add (Energy_tot t) (FeatureRow.Energy shower);
            Zen_tot := n_add (Zen_tot t) (FeatureRow.Zen shower);
            TimeDelay_tot := n_add (TimeDelay_tot t) (FeatureRow.TimeDelay shower);
            Q_tot := n_add (Q_tot t) (FeatureRow.Q shower);
            MuonVEM_tot := n_add (MuonVEM_tot t) (FeatureRow.MuonVEM shower);
            nMuons_tot := n_add (nMuons_tot t) (FeatureRow.nMuons shower) |}
       else t)
    {| nShowers := lit_0; Energy_tot := lit_0; Zen_tot := lit_0;
       TimeDelay_tot := lit_0; Q_tot := lit_0; MuonVEM_tot := lit_0;
       nMuons_tot := lit_0 |}
    List_.

(** Lines 65-71: the averaged row of [Run]. *)
Definition run_avg (List_ : list FeatureRow.t) (Type_ : string) (Run : Z) : res FeatureRow.t :=
  let t := run_totals List_ Run in
  Energy_avg ← n_div (Energy_tot t) (nShowers t);
  Zen_avg ← n_div (Zen_tot t) (nShowers t);
  TimeDelay_avg ← n_div (TimeDelay_tot t) (nShowers t);
  Q_avg ← n_div (Q_tot t) (nShowers t);
  MuonVEM_avg ← n_div (MuonVEM_tot t) (nShowers t);
  nMuons_avg ← n_div (nMuons_tot t) (nShowers t);
  mret {| FeatureRow.Run := Run; FeatureRow.Energy := Energy_avg; FeatureRow.Zen := Zen_avg;
          FeatureRow.TimeDelay := TimeDelay_avg; FeatureRow.Q := Q_avg;
          FeatureRow.MuonVEM := MuonVEM_avg; FeatureRow.nMuons := nMuons_avg;
          FeatureRow.Type_ := Type_ |}.

(** The loop [for Run in run_list] visits the set in the order of
    [elements]; no property below depends on which order that is. *)
Definition avg_runs (List_ : list FeatureRow.t) (Type_ : string) : res (list FeatureRow.t) :=
  for_each (fun avgList Run => row ← run_avg List_ Type_ Run; mret (avgList ++ [row]))
    (elements (run_list List_)) [].
End Code.
End NN_data.

(** ** neural_network_data.py *)

Module neural_network_data.

(** A row [[E_proton, E_iron, Zen, Q400, MuonVEM, nMuon, Type]]. *)
Module FeatureRow.
Record t {N : Num} : Type := {
  E_proton : num;
  E_iron : num;
  Zen : num;
  Q400 : num;
  MuonVEM : num;
  nMuon : num;
  Type_ : string;
}.
End FeatureRow.

(** The module-level lists. *)
Record globals {N : Num} : Type := {
  NNdata300 : list FeatureRow.t;
  NNdata400 : list FeatureRow.t;
}.

(** The three running sums of one shower. *)
Record sums {N : Num} : Type := {
  Q400 : num;
  MuonVEM : num;
  nMuon : num;
}.

Section Code.
Context {N : Num}.

(** Lines 21-29: the body of the loop over the detectors. *)
Definition detector (shower : Shower) (s : sums) (i : nat) : res sums :=
  let sig := Signals shower in
  latDist ← index (Signals.LatDist sig) i;
  selected ←
    (if n_gt latDist lit_400
     then pe ← index (Signals.TotalPE sig) i; mret (n_ne pe lit_0)
     else mret false);
  if selected : bool then
    totalVEM ← index (Signals.TotalVEM sig) i;
    totalPE ← index (Signals.TotalPE sig) i;
    scale ← n_div totalVEM totalPE;
    muonPE ← index (Signals.MuonPE sig) i;
    let scaledPE := n_mul scale muonPE in
    n ← index (Signals.nMuons sig) i;
    let nMuon' := n_add (nMuon s) n in
    let MuonVEM' := n_add (MuonVEM s) scaledPE in
    if n_ge totalVEM lit_0_6 && n_le totalVEM lit_2_0 then
      mret {| Q400 := n_add (Q400 s) totalVEM; MuonVEM := MuonVEM'; nMuon := nMuon' |}
    else
      mret {| Q400 := Q400 s; MuonVEM := MuonVEM'; nMuon := nMuon' |}
  else mret s.

(** Lines 15-29. *)
Definition shower_sums (shower : Shower) : res sums :=
  for_each (detector shower)
    (seq 0 (length (Signals.Tank (Signals shower))))
    {| Q400 := lit_0; MuonVEM := lit_0; nMuon := lit_0 |}.

(** Lines 9-31 up to the append: the row of one shower. *)
Definition shower_row (shower : Shower) : res FeatureRow.t :=
  let E_proton := Reconstruction.E_Proton (Reconstruction shower) in
  let E_iron := Reconstruction.E_Iron (Reconstruction shower) in
  let Zen := Reconstruction.zen (Reconstruction shower) in
  let Type_ := Primary.Type_ (Primary shower) in
  s ← shower_sums shower;
  mret {| FeatureRow.E_proton := E_proton; FeatureRow.E_iron := E_iron; FeatureRow.Zen := Zen;
          FeatureRow.Q400 := Q400 s; FeatureRow.MuonVEM := MuonVEM s; FeatureRow.nMuon := nMuon s;
          FeatureRow.Type_ := Type_ |}.

(** [process_shower] returns [None] and appends the row to the global
    [NNdata400]; an exception leaves the globals as they were, the
    append being the last statement. *)
Definition process_shower (shower : Shower) (g : globals) : res unit * globals :=
  match shower_row shower with
  | OK row =>
      (OK (), {| NNdata300 := NNdata300 g; NNdata400 := NNdata400 g ++ [row] |})
  | Raise e => (Raise e, g)
  end.

(** Lines 35-36 and 40-41: [for shower in data: process_shower(shower)]. *)
Fixpoint process_all (showers : list Shower) (g : globals) : res unit * globals :=
  match showers with
  | [] => (OK (), g)
  | shower :: showers' =>
      match process_shower shower g with
      | (OK _, g') => process_all showers' g'
      | (Raise e, g') => (Raise e, g')
      end
  end.
End Code.
End neural_network_data.

(** ** Vocabulary of the specification *)

Section Vocabulary.
Context {N : Num}.
Implicit Types (shower : Shower) (i : nat).

Definition n_detectors shower : nat := length (Signals.Tank (Signals shower)).

(** Every per-detector sequence is at least as long as [Tank]: all the
    reads of the loop are in range. *)
Definition covers shower : Prop :=
  let sig := Signals shower in
  n_detectors shower ≤ length (Signals.LatDist sig) ∧
  n_detectors shower ≤ length (Signals.TotalPE sig) ∧
  n_detectors shower ≤ length (Signals.TotalVEM sig) ∧
  n_detectors shower ≤ length (Signals.MuonPE sig) ∧
  n_detectors shower ≤ length (Signals.nMuons sig) ∧
  n_detectors shower ≤ length (Signals.TimeDelay sig).

(** The parallel sequences all have the length of [Tank]. *)
Definition equal_lengths shower : Prop :=
  let sig := Signals shower in
  length (Signals.LatDist sig) = n_detectors shower ∧
  length (Signals.TotalPE sig) = n_detectors shower ∧
  length (Signals.TotalVEM sig) = n_detectors shower ∧
  length (Signals.MuonPE sig) = n_detectors shower ∧
  length (Signals.nMuons sig) = n_detectors shower ∧
  length (Signals.TimeDelay sig) = n_detectors shower.

Definition lateral_distance shower i : num := at_ (Signals.LatDist (Signals shower)) i.
Definition total_PE shower i : num := at_ (Signals.TotalPE (Signals shower)) i.
Definition total_VEM shower i : num := at_ (Signals.TotalVEM (Signals shower)) i.
Definition muon_PE shower i : num := at_ (Signals.MuonPE (Signals shower)) i.
Definition muon_count shower i : num := at_ (Signals.nMuons (Signals shower)) i.
Definition time_delay shower i : num := at_ (Signals.TimeDelay (Signals shower)) i.

(** The distance and photoelectron cut, with [>=] and with [>]. *)
Definition passes_ge shower i : bool :=
  n_ge (lateral_distance shower i) lit_400 && n_ne (total_PE shower i) lit_0.

Definition passes_gt shower i : bool :=
  n_gt (lateral_distance shower i) lit_400 && n_ne (total_PE shower i) lit_0.

(** The band [0.6 <= x <= 2.0]. *)
Definition in_band (x : num) : bool := n_ge x lit_0_6 && n_le x lit_2_0.

Definition scaled_muon_PE shower i : num :=
  n_mul (n_quot (total_VEM shower i) (total_PE shower i)) (muon_PE shower i).

(** The detectors that pass a cut, in index order. *)
Definition selected (passes : Shower -> nat -> bool) shower : list nat :=
  filter (fun i => passes shower i) (seq 0 (n_detectors shower)).

(** The selected detectors whose charge is in the band. *)
Definition selected_in_band (passes : Shower -> nat -> bool) shower : list nat :=
  filter (fun i => in_band (total_VEM shower i)) (selected passes shower).

(** What detector [i] adds to the running sums of [NN_data.py] once it is
    included. *)
Definition include shower (s : NN_data.sums) i : NN_data.sums :=
  {| NN_data.TimeDelay :=
       if in_band (total_VEM shower i)
       then n_add (NN_data.TimeDelay s) (n_abs (time_delay shower i))
       else NN_data.TimeDelay s;
     NN_data.Q :=
       if in_band (total_VEM shower i)
       then n_add (NN_data.Q s) (total_VEM shower i)
       else NN_data.Q s;
     NN_data.MuonVEM := n_add (NN_data.MuonVEM s) (scaled_muon_PE shower i);
     NN_data.nMuons := n_add (NN_data.nMuons s) (muon_count shower i) |}.

(** The same for the three sums of [neural_network_data.py]. *)
Definition include400 shower (s : neural_network_data.sums) i : neural_network_data.sums :=
  {| neural_network_data.Q400 :=
       if in_band (total_VEM shower i)
       then n_add (neural_network_data.Q400 s) (total_VEM shower i)
       else neural_network_data.Q400 s;
     neural_network_data.MuonVEM :=
       n_add (neural_network_data.MuonVEM s) (scaled_muon_PE shower i);
     neural_network_data.nMuon :=
       n_add (neural_network_data.nMuon s) (muon_count shower i) |}.

Definition no_sums : NN_data.sums :=
  {| NN_data.TimeDelay := lit_0; NN_data.Q := lit_0;
     NN_data.MuonVEM := lit_0; NN_data.nMuons := lit_0 |}.

Definition no_sums400 : neural_network_data.sums :=
  {| neural_network_data.Q400 := lit_0; neural_network_data.MuonVEM := lit_0;
     neural_network_data.nMuon := lit_0 |}.

(** Two showers present the same detectors to a cut: same number of
    detectors, same distances and photoelectron counts, and the same
    signals at every detector that passes. *)
Definition same_selected (passes : Shower -> nat -> bool) shower shower' : Prop :=
  n_detectors shower = n_detectors shower' ∧
  (∀ i, i < n_detectors shower →
     lateral_distance shower i = lateral_distance shower' i ∧
     total_PE shower i = total_PE shower' i) ∧
  (∀ i, i < n_detectors shower → passes shower i = true →
     total_VEM shower i = total_VEM shower' i ∧
     muon_PE shower i = muon_PE shower' i ∧
     muon_count shower i = muon_count shower' i ∧
     time_delay shower i = time_delay shower' i).

(** The rows of a run, and the mean of a column over them. *)
Definition rows_of_run (Run : Z) (List_ : list NN_data.FeatureRow.t) : list NN_data.FeatureRow.t :=
  filter (fun row => NN_data.FeatureRow.Run row = Run) List_.

Definition mean (column : NN_data.FeatureRow.t -> num) (rows : list NN_data.FeatureRow.t) : num :=
  n_quot (fsum (column <$> rows)) (count_up (length rows)).

(** The row of the means of the rows of [Run], tagged [Type_]. *)
Definition mean_row (List_ : list NN_data.FeatureRow.t) (Type_ : string) (Run : Z) : NN_data.FeatureRow.t :=
  let rows := rows_of_run Run List_ in
  {| NN_data.FeatureRow.Run := Run;
     NN_data.FeatureRow.Energy := mean NN_data.FeatureRow.Energy rows;
     NN_data.FeatureRow.Zen := mean NN_data.FeatureRow.Zen rows;
     NN_data.FeatureRow.TimeDelay := mean NN_data.FeatureRow.TimeDelay rows;
     NN_data.FeatureRow.Q := mean NN_data.FeatureRow.Q rows;
     NN_data.FeatureRow.MuonVEM := mean NN_data.FeatureRow.MuonVEM rows;
     NN_data.FeatureRow.nMuons := mean NN_data.FeatureRow.nMuons rows;
     NN_data.FeatureRow.Type_ := Type_ |}.

(** The row of the means of [n] copies of [row], tagged [Type_]: each
    field is the running sum of [n] copies divided by the count [n]. *)
Definition mean_of_copies (n : nat) (row : NN_data.FeatureRow.t) (Type_ : string) : NN_data.FeatureRow.t :=
  let m x := n_quot (fsum (replicate n x)) (count_up n) in
  {| NN_data.FeatureRow.Run := NN_data.FeatureRow.Run row;
     NN_data.FeatureRow.Energy := m (NN_data.FeatureRow.Energy row);
     NN_data.FeatureRow.Zen := m (NN_data.FeatureRow.Zen row);
     NN_data.FeatureRow.TimeDelay := m (NN_data.FeatureRow.TimeDelay row);
     NN_data.FeatureRow.Q := m (NN_data.FeatureRow.Q row);
     NN_data.FeatureRow.MuonVEM := m (NN_data.FeatureRow.MuonVEM row);
     NN_data.FeatureRow.nMuons := m (NN_data.FeatureRow.nMuons row);
     NN_data.FeatureRow.Type_ := Type_ |}.

(** A row with its label replaced. *)
Definition relabel (Type_ : string) (row : NN_data.FeatureRow.t) : NN_data.FeatureRow.t :=
  {| NN_data.FeatureRow.Run := NN_data.FeatureRow.Run row;
     NN_data.FeatureRow.Energy := NN_data.FeatureRow.Energy row;
     NN_data.FeatureRow.Zen := NN_data.FeatureRow.Zen row;
     NN_data.FeatureRow.TimeDelay := NN_data.FeatureRow.TimeDelay row;
     NN_data.FeatureRow.Q := NN_data.FeatureRow.Q row;
     NN_data.FeatureRow.MuonVEM := NN_data.FeatureRow.MuonVEM row;
     NN_data.FeatureRow.nMuons := NN_data.FeatureRow.nMuons row;
     NN_data.FeatureRow.Type_ := Type_ |}.

(** The distinct run numbers of a table, in order of first occurrence. *)
Definition distinct_runs (List_ : list NN_data.FeatureRow.t) : list Z :=
  remove_dups (NN_data.FeatureRow.Run <$> List_).
End Vocabulary.

(** ** Sample records, in binary64 *)

Section Samples.
#[local] Existing Instance binary64.
Open Scope float_scope.

Definition sample_reconstruction : Reconstruction.t :=
  {| Reconstruction.Energy := 7.5; Reconstruction.E_Proton := 7.25;
     Reconstruction.E_Iron := 7.75; Reconstruction.zen := 0.25 |}.

Definition sample_shower (Tank : list Z)
    (LatDist TotalPE TotalVEM MuonPE nMuons TimeDelay : list float) : Shower :=
  {| Run := 12;
     Reconstruction := sample_reconstruction;
     Primary := {| Primary.Type_ := "PPlus" |};
     Signals := {| Signals.Tank := Tank; Signals.LatDist := LatDist;
                   Signals.TotalPE := TotalPE; Signals.TotalVEM := TotalVEM;
                   Signals.MuonPE := MuonPE; Signals.nMuons := nMuons;
                   Signals.TimeDelay := TimeDelay |} |}.

(** Detector A at 500 with 10 PE, 1.0 VEM, 5 muon PE, 2 muons and a delay
    of 3.0; detector B at 300, below the cut. *)
Definition shower_AB : Shower :=
  sample_shower [21; 22]%Z [500; 300] [10; 8] [1; 0.8] [5; 4] [2; 1] [3; 1.5].

(** One detector exactly at the cut distance. *)
Definition shower_at_cut : Shower :=
  sample_shower [21]%Z [400] [10] [1] [5] [2] [3].

(** One selected detector with a charge of 2.1 VEM, above the band. *)
Definition shower_above_band : Shower :=
  sample_shower [21]%Z [500] [10] [2.1] [5] [2] [-3].

(** A selected detector without photoelectrons next to detector A. *)
Definition shower_no_PE : Shower :=
  sample_shower [21; 22]%Z [500; 600] [10; 0] [1; 1] [5; 4] [2; 1] [3; 1.5].

(** Mismatched lengths: one tank, two entries in every other sequence. *)
Definition shower_surplus : Shower :=
  sample_shower [21]%Z [500; 300] [10; 8] [1; 0.8] [5; 4] [2; 1] [3; 1.5].

(** Mismatched lengths: two tanks, one lateral distance. *)
Definition shower_short : Shower :=
  sample_shower [21; 22]%Z [500] [10; 8] [1; 0.8] [5; 4] [2; 1] [3; 1.5].

Definition no_globals : neural_network_data.globals :=
  {| neural_network_data.NNdata300 := []; neural_network_data.NNdata400 := [] |}.

(** A row of run [Run] whose six numeric fields are all [x]. *)
Definition flat_row (Run : Z) (x : float) : NN_data.FeatureRow.t :=
  {| NN_data.FeatureRow.Run := Run; NN_data.FeatureRow.Energy := x; NN_data.FeatureRow.Zen := x;
     NN_data.FeatureRow.TimeDelay := x; NN_data.FeatureRow.Q := x; NN_data.FeatureRow.MuonVEM := x;
     NN_data.FeatureRow.nMuons := x; NN_data.FeatureRow.Type_ := "PPlus" |}.

(** A row of run [Run] with charge sum [q] and every other field zero. *)
Definition charge_row (Run : Z) (q : float) : NN_data.FeatureRow.t :=
  {| NN_data.FeatureRow.Run := Run; NN_data.FeatureRow.Energy := 0; NN_data.FeatureRow.Zen := 0;
     NN_data.FeatureRow.TimeDelay := 0; NN_data.FeatureRow.Q := q; NN_data.FeatureRow.MuonVEM := 0;
     NN_data.FeatureRow.nMuons := 0; NN_data.FeatureRow.Type_ := "PPlus" |}.
End Samples.

(** ** Sample rows over the rationals *)

Section SamplesQ.
#[local] Existing Instance rational.

Definition flat_row_Q (Run : Z) (x : Qc) : NN_data.FeatureRow.t :=
  {| NN_data.FeatureRow.Run := Run; NN_data.FeatureRow.Energy := x; NN_data.FeatureRow.Zen := x;
     NN_data.FeatureRow.TimeDelay := x; NN_data.FeatureRow.Q := x; NN_data.FeatureRow.MuonVEM := x;
     NN_data.FeatureRow.nMuons := x; NN_data.FeatureRow.Type_ := "PPlus" |}.
End SamplesQ.

(** ** The scripts around the functions *)

(** The four tables that [NN_data.py] has built when it reaches
    [np.concatenate] (lines 77-86). *)
Record tables {N : Num} : Type := {
  NNdata_proton : list NN_data.FeatureRow.t;
  NNdata_proton_avg : list NN_data.FeatureRow.t;
  NNdata_iron : list NN_data.FeatureRow.t;
  NNdata_iron_avg : list NN_data.FeatureRow.t;
}.

(** [NN_data.py], lines 77-86, on the two loaded data sets.  The
    conversion of the tables to arrays by [np.concatenate] and [np.save]
    is not part of the model. *)
Definition NN_data_script {N : Num} (protondata irondata : list Shower) : res tables :=
  NNdata_proton ← NN_data.process_showers protondata;
  NNdata_proton_avg ← NN_data.avg_runs NNdata_proton "PPlus";
  NNdata_iron ← NN_data.process_showers irondata;
  NNdata_iron_avg ← NN_data.avg_runs NNdata_iron "Fe56Nucleus";
  mret {| NNdata_proton := NNdata_proton; NNdata_proton_avg := NNdata_proton_avg;
          NNdata_iron := NNdata_iron; NNdata_iron_avg := NNdata_iron_avg |}.

(** [neural_network_data.py], lines 5-6 and 34-42: both lists start empty,
    and the two loops run one after the other on the same globals.  The
    list [NNdata400] of the final globals is what the script saves. *)
Definition neural_network_data_script {N : Num} (protondata irondata : list Shower)
    : res unit * neural_network_data.globals :=
  match neural_network_data.process_all protondata
          {| neural_network_data.NNdata300 := []; neural_network_data.NNdata400 := [] |} with
  | (OK _, g) => neural_network_data.process_all irondata g
  | (Raise e, g) => (Raise e, g)
  end.

(** A binary64 value that is not negative: [+0], positive, [+inf], or
    not a number. *)
Definition not_negative_SF (x : spec_float) : Prop :=
  match x with
  | S754_zero false | S754_finite false _ _ | S754_infinity false | S754_nan => True
  | _ => False
  end.

(** A shower cut down to its detectors: every sequence keeps its first
    [len(Tank)] entries. *)
Definition truncated {N : Num} (shower : Shower) : Shower :=
  let n := n_detectors shower in
  let sig := Signals shower in
  {| Run := Run shower;
     Reconstruction := Reconstruction shower;
     Primary := Primary shower;
     Signals := {| Signals.Tank := Signals.Tank sig;
                   Signals.LatDist := take n (Signals.LatDist sig);
                   Signals.TotalPE := take n (Signals.TotalPE sig);
                   Signals.TotalVEM := take n (Signals.TotalVEM sig);
                   Signals.MuonPE := take n (Signals.MuonPE sig);
                   Signals.nMuons := take n (Signals.nMuons sig);
                   Signals.TimeDelay := take n (Signals.TimeDelay sig) |} |}.

(** A number that is not equal to itself: in binary64, not a number. *)
Definition is_nan {N : Num} (x : num) : Prop := n_eq x x = false.

(** ** More sample showers, in binary64 *)

Section MoreSamples.
#[local] Existing Instance binary64.
Open Scope float_scope.

(** One detector at 300, below both cuts. *)
Definition shower_below_cut : Shower :=
  sample_shower [21]%Z [300] [8] [0.8] [4] [1] [1.5].

(** One detector at 500 whose photoelectron count is not a number. *)
Definition shower_nan_PE : Shower :=
  sample_shower [21]%Z [500] [nan] [1] [5] [2] [3].
End MoreSamples.

(** * Properties *)

(** ** The error monad and the loop *)

Lemma index_at {N : Num} (l : list num) (i : nat) :
  i < length l -> index l i = OK (at_ l i).
Proof.
  intros Hi. unfold index, at_.
  destruct (lookup_lt_is_Some_2 l i Hi) as [x ->]. reflexivity.
Qed.

Lemma index_past {B : Type} (l : list B) (i : nat) :
  length l ≤ i -> index l i = Raise IndexError.
Proof. intros Hi. unfold index. rewrite lookup_ge_None_2; done. Qed.

Lemma index_raise {B : Type} (l : list B) (i : nat) (e : exn) :
  index l i = Raise e -> e = IndexError ∧ length l ≤ i.
Proof.
  unfold index. destruct (l !! i) eqn:E; [discriminate|].
  intros [= <-]. split; [done|]. by apply lookup_ge_None.
Qed.

Section Loop.
Context {A S : Type}.
Implicit Types (f : S -> A -> res S) (l : list A) (s : S).

Lemma for_each_app f l1 l2 s :
  for_each f (l1 ++ l2) s = s' ← for_each f l1 s; for_each f l2 s'.
Proof.
  revert s. induction l1 as [|x l1 IH]; intros s; simpl; [done|].
  destruct (f s x) as [s'|e]; simpl; [apply IH | done].
Qed.

(** A loop whose body cannot fail on the elements it visits is a fold. *)
Lemma for_each_foldl f (g : S -> A -> S) l s :
  (forall x, x ∈ l -> forall s0, f s0 x = OK (g s0 x)) ->
  for_each f l s = OK (foldl g s l).
Proof.
  revert s. induction l as [|x l IH]; intros s Hf; simpl; [done|].
  rewrite Hf by left. simpl. apply IH. intros y Hy. apply Hf. by right.
Qed.

(** An exception of the loop is an exception of its body. *)
Lemma for_each_raise f l s e :
  for_each f l s = Raise e -> exists s0 x, x ∈ l ∧ f s0 x = Raise e.
Proof.
  revert s. induction l as [|x l IH]; intros s; simpl; [discriminate|].
  destruct (f s x) as [s'|e'] eqn:E; simpl.
  - intros H. destruct (IH _ H) as (s0 & y & Hy & Hf).
    exists s0, y. split; [by right | done].
  - intros [= <-]. exists s, x. split; [by left | done].
Qed.

(** A loop that returns has run its body on every element. *)
Lemma for_each_OK_inv f l s s' x :
  for_each f l s = OK s' -> x ∈ l -> exists s0 s1, f s0 x = OK s1.
Proof.
  revert s. induction l as [|y l IH]; intros s H Hx; [by apply elem_of_nil in Hx|].
  simpl in H. destruct (f s y) as [s1|e] eqn:E; simpl in H; [|discriminate].
  apply elem_of_cons in Hx as [->|Hx]; [by exists s, s1 | by eapply IH].
Qed.
End Loop.

Lemma foldl_filter {A S : Type} (p : A -> bool) (g : S -> A -> S) (l : list A) (s : S) :
  foldl (fun s0 x => if p x then g s0 x else s0) s l = foldl g s (filter (fun x => p x) l).
Proof.
  revert s. induction l as [|x l IH]; intros s; simpl; [done|].
  rewrite filter_cons. destruct (decide (p x)) as [Hp|Hp]; destruct (p x); try done; simpl; apply IH.
Qed.

(** ** The loop over the detectors *)

Section Extraction.
Context {N : Num}.
Implicit Types (shower : Shower) (i : nat).

Lemma n_div_guarded (x y : num) :
  n_ne y lit_0 = true -> n_div x y = OK (n_quot x y).
Proof.
  unfold n_ne, n_div. destruct (n_eq y lit_0); [discriminate | done].
Qed.

(** With every read in range, the body of the loop of [NN_data.py]
    includes detector [i] exactly when it passes the [>=] cut. *)
Lemma detector_covered shower (s : NN_data.sums) i :
  covers shower -> i < n_detectors shower ->
  NN_data.detector shower s i
  = OK (if passes_ge shower i then include shower s i else s).
Proof.
  intros (H1 & H2 & H3 & H4 & H5 & H6) Hi.
  unfold NN_data.detector, passes_ge, include, in_band, scaled_muon_PE,
    lateral_distance, total_PE, total_VEM, muon_PE, muon_count, time_delay,
    NN_data.cut_dist.
  rewrite !index_at by lia. cbn.
  destruct (n_ge _ lit_400); cbn; [|done].
  destruct (n_ne _ lit_0) eqn:Hpe; cbn; [|done].
  rewrite (n_div_guarded _ _ Hpe). cbn.
  destruct (n_ge _ lit_0_6 && n_le _ lit_2_0); done.
Qed.

(** The same for [neural_network_data.py], whose cut is strict. *)
Lemma detector400_covered shower (s : neural_network_data.sums) i :
  covers shower -> i < n_detectors shower ->
  neural_network_data.detector shower s i
  = OK (if passes_gt shower i then include400 shower s i else s).
Proof.
  intros (H1 & H2 & H3 & H4 & H5 & H6) Hi.
  unfold neural_network_data.detector, passes_gt, include400, in_band,
    scaled_muon_PE, lateral_distance, total_PE, total_VEM, muon_PE, muon_count.
  rewrite !index_at by lia. cbn.
  destruct (n_gt _ lit_400); cbn; [|done].
  destruct (n_ne _ lit_0) eqn:Hpe; cbn; [|done].
  rewrite (n_div_guarded _ _ Hpe). cbn.
  destruct (n_ge _ lit_0_6 && n_le _ lit_2_0); done.
Qed.

Lemma shower_sums_covered shower :
  covers shower ->
  NN_data.shower_sums shower
  = OK (foldl (include shower) no_sums (selected passes_ge shower)).
Proof.
  intros Hc. unfold NN_data.shower_sums, selected.
  rewrite <- foldl_filter.
  apply for_each_foldl. intros i Hi s.
  apply detector_covered; [done|].
  apply elem_of_seq in Hi. lia.
Qed.

Lemma shower_sums400_covered shower :
  covers shower ->
  neural_network_data.shower_sums shower
  = OK (foldl (include400 shower) no_sums400 (selected passes_gt shower)).
Proof.
  intros Hc. unfold neural_network_data.shower_sums, selected.
  rewrite <- foldl_filter.
  apply for_each_foldl. intros i Hi s.
  apply detector400_covered; [done|].
  apply elem_of_seq in Hi. lia.
Qed.

(** The four sums, one by one, as left-to-right sums over index lists. *)
Lemma foldl_include_MuonVEM shower (l : list nat) (s : NN_data.sums) :
  NN_data.MuonVEM (foldl (include shower) s l)
  = foldl n_add (NN_data.MuonVEM s) (scaled_muon_PE shower <$> l).
Proof. revert s. induction l as [|i l IH]; intros s; simpl; [done | by rewrite IH]. Qed.

Lemma foldl_include_nMuons shower (l : list nat) (s : NN_data.sums) :
  NN_data.nMuons (foldl (include shower) s l)
  = foldl n_add (NN_data.nMuons s) (muon_count shower <$> l).
Proof. revert s. induction l as [|i l IH]; intros s; simpl; [done | by rewrite IH]. Qed.

Lemma foldl_include_Q shower (l : list nat) (s : NN_data.sums) :
  NN_data.Q (foldl (include shower) s l)
  = foldl n_add (NN_data.Q s)
      (total_VEM shower <$> filter (fun i => in_band (total_VEM shower i)) l).
Proof.
  revert s. induction l as [|i l IH]; intros s; simpl; [done|].
  rewrite IH, filter_cons. simpl.
  destruct (decide (in_band (total_VEM shower i))) as [Hb|Hb];
    destruct (in_band (total_VEM shower i)); done.
Qed.

Lemma foldl_include_TimeDelay shower (l : list nat) (s : NN_data.sums) :
  NN_data.TimeDelay (foldl (include shower) s l)
  = foldl n_add (NN_data.TimeDelay s)
      ((fun i => n_abs (time_delay shower i))
         <$> filter (fun i => in_band (total_VEM shower i)) l).
Proof.
  revert s. induction l as [|i l IH]; intros s; simpl; [done|].
  rewrite IH, filter_cons. simpl.
  destruct (decide (in_band (total_VEM shower i))) as [Hb|Hb];
    destruct (in_band (total_VEM shower i)); done.
Qed.

Lemma foldl_include400_MuonVEM shower (l : list nat) (s : neural_network_data.sums) :
  neural_network_data.MuonVEM (foldl (include400 shower) s l)
  = foldl n_add (neural_network_data.MuonVEM s) (scaled_muon_PE shower <$> l).
Proof. revert s. induction l as [|i l IH]; intros s; simpl; [done | by rewrite IH]. Qed.

Lemma foldl_include400_nMuon shower (l : list nat) (s : neural_network_data.sums) :
  neural_network_data.nMuon (foldl (include400 shower) s l)
  = foldl n_add (neural_network_data.nMuon s) (muon_count shower <$> l).
Proof. revert s. induction l as [|i l IH]; intros s; simpl; [done | by rewrite IH]. Qed.

Lemma foldl_include400_Q400 shower (l : list nat) (s : neural_network_data.sums) :
  neural_network_data.Q400 (foldl (include400 shower) s l)
  = foldl n_add (neural_network_data.Q400 s)
      (total_VEM shower <$> filter (fun i => in_band (total_VEM shower i)) l).
Proof.
  revert s. induction l as [|i l IH]; intros s; simpl; [done|].
  rewrite IH, filter_cons. simpl.
  destruct (decide (in_band (total_VEM shower i))) as [Hb|Hb];
    destruct (in_band (total_VEM shower i)); done.
Qed.
End Extraction.

Lemma foldl_ext_elem {A S : Type} (g g' : S -> A -> S) (l : list A) (s : S) :
  (forall x, x ∈ l -> forall s0, g s0 x = g' s0 x) -> foldl g s l = foldl g' s l.
Proof.
  revert s. induction l as [|x l IH]; intros s Hg; simpl; [done|].
  rewrite Hg by left. apply IH. intros y Hy. apply Hg. by right.
Qed.

Lemma filter_ext_elem {A : Type} (p q : A -> bool) (l : list A) :
  (forall x, x ∈ l -> p x = q x) ->
  filter (fun x => p x) l = filter (fun x => q x) l.
Proof.
  induction l as [|x l IH]; intros Hpq; [done|].
  rewrite !filter_cons, IH by (intros y Hy; apply Hpq; by right).
  rewrite (Hpq x) by left. done.
Qed.

Section Selection.
Context {N : Num}.
Implicit Types (shower : Shower) (i : nat).

Lemma elem_of_selected (passes : Shower -> nat -> bool) shower i :
  i ∈ selected passes shower <-> i < n_detectors shower ∧ passes shower i = true.
Proof.
  unfold selected. rewrite list_elem_of_filter, elem_of_seq, Is_true_true.
  intuition lia.
Qed.

Lemma elem_of_selected_in_band (passes : Shower -> nat -> bool) shower i :
  i ∈ selected_in_band passes shower
  <-> i ∈ selected passes shower ∧ in_band (total_VEM shower i) = true.
Proof.
  unfold selected_in_band. rewrite list_elem_of_filter, Is_true_true. tauto.
Qed.

Lemma same_selected_list (passes : Shower -> nat -> bool) shower shower' :
  (forall i, i < n_detectors shower -> passes shower i = passes shower' i) ->
  n_detectors shower = n_detectors shower' ->
  selected passes shower = selected passes shower'.
Proof.
  intros Hp Hn. unfold selected. rewrite <- Hn.
  apply filter_ext_elem. intros i Hi. apply Hp. apply elem_of_seq in Hi. lia.
Qed.

Lemma same_selected_sums shower shower' :
  covers shower -> covers shower' -> same_selected passes_ge shower shower' ->
  NN_data.shower_sums shower' = NN_data.shower_sums shower.
Proof.
  intros Hc Hc' (Hn & Hcut & Hsig).
  rewrite !shower_sums_covered by done.
  rewrite <- (same_selected_list passes_ge shower shower'); [|
    intros i Hi; unfold passes_ge; destruct (Hcut i Hi) as [-> ->]; done | done].
  f_equal. apply foldl_ext_elem. intros i Hi s.
  apply elem_of_selected in Hi as [Hi Hp].
  destruct (Hcut i Hi) as [_ Hpe], (Hsig i Hi Hp) as (Hv & Hm & Hc1 & Ht).
  unfold include, scaled_muon_PE. by rewrite Hpe, Hv, Hm, Hc1, Ht.
Qed.

Lemma same_selected_sums400 shower shower' :
  covers shower -> covers shower' -> same_selected passes_gt shower shower' ->
  neural_network_data.shower_sums shower' = neural_network_data.shower_sums shower.
Proof.
  intros Hc Hc' (Hn & Hcut & Hsig).
  rewrite !shower_sums400_covered by done.
  rewrite <- (same_selected_list passes_gt shower shower'); [|
    intros i Hi; unfold passes_gt; destruct (Hcut i Hi) as [-> ->]; done | done].
  f_equal. apply foldl_ext_elem. intros i Hi s.
  apply elem_of_selected in Hi as [Hi Hp].
  destruct (Hcut i Hi) as [_ Hpe], (Hsig i Hi Hp) as (Hv & Hm & Hc1 & Ht).
  unfold include400, scaled_muon_PE. by rewrite Hpe, Hv, Hm, Hc1.
Qed.

Lemma shower_row_covered shower :
  covers shower ->
  NN_data.shower_row shower
  = OK (let s := foldl (include shower) no_sums (selected passes_ge shower) in
        {| NN_data.FeatureRow.Run := Run shower;
           NN_data.FeatureRow.Energy := Reconstruction.Energy (Reconstruction shower);
           NN_data.FeatureRow.Zen := Reconstruction.zen (Reconstruction shower);
           NN_data.FeatureRow.TimeDelay := NN_data.TimeDelay s;
           NN_data.FeatureRow.Q := NN_data.Q s;
           NN_data.FeatureRow.MuonVEM := NN_data.MuonVEM s;
           NN_data.FeatureRow.nMuons := NN_data.nMuons s;
           NN_data.FeatureRow.Type_ := Primary.Type_ (Primary shower) |}).
Proof.
  intros Hc. unfold NN_data.shower_row. by rewrite shower_sums_covered.
Qed.

Lemma shower_row400_covered shower :
  covers shower ->
  neural_network_data.shower_row shower
  = OK (let s := foldl (include400 shower) no_sums400 (selected passes_gt shower) in
        {| neural_network_data.FeatureRow.E_proton := Reconstruction.E_Proton (Reconstruction shower);
           neural_network_data.FeatureRow.E_iron := Reconstruction.E_Iron (Reconstruction shower);
           neural_network_data.FeatureRow.Zen := Reconstruction.zen (Reconstruction shower);
           neural_network_data.FeatureRow.Q400 := neural_network_data.Q400 s;
           neural_network_data.FeatureRow.MuonVEM := neural_network_data.MuonVEM s;
           neural_network_data.FeatureRow.nMuon := neural_network_data.nMuon s;
           neural_network_data.FeatureRow.Type_ := Primary.Type_ (Primary shower) |}).
Proof.
  intros Hc. unfold neural_network_data.shower_row. by rewrite shower_sums400_covered.
Qed.
End Selection.

(** ** Exceptions of the extraction *)

Section Exceptions.
Context {N : Num}.
Implicit Types (shower : Shower) (i : nat) (e : exn).

(** Case analysis on the next read of a sequence. *)
Ltac read :=
  match goal with
  | |- context [index ?l ?i] =>
      let E := fresh "E" in
      destruct (index l i) eqn:E; cbn;
      [| intros [= <-]; apply index_raise in E as [-> _]; done ]
  end.

Lemma detector_raise shower (s : NN_data.sums) i e :
  NN_data.detector shower s i = Raise e -> e = IndexError.
Proof.
  unfold NN_data.detector. read.
  destruct (n_ge _ NN_data.cut_dist); cbn; [|discriminate].
  read. destruct (n_ne _ lit_0) eqn:Hpe; cbn; [|discriminate].
  read. rewrite (n_div_guarded _ _ Hpe). cbn. read. read.
  destruct (_ && _); [read|]; discriminate.
Qed.

Lemma detector400_raise shower (s : neural_network_data.sums) i e :
  neural_network_data.detector shower s i = Raise e -> e = IndexError.
Proof.
  unfold neural_network_data.detector. read.
  destruct (n_gt _ lit_400); cbn; [|discriminate].
  read. destruct (n_ne _ lit_0) eqn:Hpe; cbn; [|discriminate].
  read. rewrite (n_div_guarded _ _ Hpe). cbn. read. read.
  destruct (_ && _); discriminate.
Qed.

Lemma detector_past_LatDist shower (s : NN_data.sums) i :
  length (Signals.LatDist (Signals shower)) ≤ i ->
  NN_data.detector shower s i = Raise IndexError.
Proof. intros Hi. unfold NN_data.detector. rewrite (index_past (Signals.LatDist _)) by exact Hi. reflexivity. Qed.

Lemma detector400_past_LatDist shower (s : neural_network_data.sums) i :
  length (Signals.LatDist (Signals shower)) ≤ i ->
  neural_network_data.detector shower s i = Raise IndexError.
Proof. intros Hi. unfold neural_network_data.detector. rewrite (index_past (Signals.LatDist _)) by exact Hi. reflexivity. Qed.

Lemma shower_sums_raise shower e :
  NN_data.shower_sums shower = Raise e -> e = IndexError ∧ ¬ covers shower.
Proof.
  intros H. split.
  - apply for_each_raise in H as (s0 & i & _ & H). exact (detector_raise _ _ _ _ H).
  - intros Hc. by rewrite shower_sums_covered in H.
Qed.

Lemma shower_sums400_raise shower e :
  neural_network_data.shower_sums shower = Raise e -> e = IndexError ∧ ¬ covers shower.
Proof.
  intros H. split.
  - apply for_each_raise in H as (s0 & i & _ & H). exact (detector400_raise _ _ _ _ H).
  - intros Hc. by rewrite shower_sums400_covered in H.
Qed.

Lemma shower_sums_short shower :
  length (Signals.LatDist (Signals shower)) < n_detectors shower ->
  NN_data.shower_sums shower = Raise IndexError.
Proof.
  intros Hlen. destruct (NN_data.shower_sums shower) as [s|e] eqn:E.
  - eapply (for_each_OK_inv _ _ _ _ (length (Signals.LatDist (Signals shower))))
      in E as (s0 & s1 & E); [| apply elem_of_seq; unfold n_detectors in Hlen; lia].
    by rewrite detector_past_LatDist in E.
  - by apply shower_sums_raise in E as [-> _].
Qed.

Lemma shower_sums400_short shower :
  length (Signals.LatDist (Signals shower)) < n_detectors shower ->
  neural_network_data.shower_sums shower = Raise IndexError.
Proof.
  intros Hlen. destruct (neural_network_data.shower_sums shower) as [s|e] eqn:E.
  - eapply (for_each_OK_inv _ _ _ _ (length (Signals.LatDist (Signals shower))))
      in E as (s0 & s1 & E); [| apply elem_of_seq; unfold n_detectors in Hlen; lia].
    by rewrite detector400_past_LatDist in E.
  - by apply shower_sums400_raise in E as [-> _].
Qed.

Lemma shower_row_raise shower e :
  NN_data.shower_row shower = Raise e <-> NN_data.shower_sums shower = Raise e.
Proof.
  unfold NN_data.shower_row.
  destruct (NN_data.shower_sums shower); cbn;
    [split; intros H; discriminate H | split; intros [= ->]; reflexivity].
Qed.

Lemma shower_row400_raise shower e :
  neural_network_data.shower_row shower = Raise e
  <-> neural_network_data.shower_sums shower = Raise e.
Proof.
  unfold neural_network_data.shower_row.
  destruct (neural_network_data.shower_sums shower); cbn;
    [split; intros H; discriminate H | split; intros [= ->]; reflexivity].
Qed.
End Exceptions.

(** ** The run averages *)

Lemma foldl_filter_decide {A S : Type} (P : A -> Prop) `{!forall x, Decision (P x)}
    (g : S -> A -> S) (l : list A) (s : S) :
  foldl (fun s0 x => if decide (P x) then g s0 x else s0) s l = foldl g s (filter P l).
Proof.
  revert s. induction l as [|x l IH]; intros s; simpl; [done|].
  rewrite filter_cons. destruct (decide (P x)); simpl; apply IH.
Qed.

Lemma foldl_snoc_fmap {A B : Type} (h : A -> B) (l : list A) (acc : list B) :
  foldl (fun acc0 x => acc0 ++ [h x]) acc l = acc ++ (h <$> l).
Proof.
  revert acc. induction l as [|x l IH]; intros acc; simpl.
  - by rewrite app_nil_r.
  - by rewrite IH, <- app_assoc.
Qed.

Section Averages.
Context {N : Num}.
Implicit Types (Run : Z).

Lemma fsum_snoc (l : list num) (x : num) : fsum (l ++ [x]) = n_add (fsum l) x.
Proof. unfold fsum. by rewrite foldl_app. Qed.

Lemma elem_of_run_list (List_ : list NN_data.FeatureRow.t) Run :
  Run ∈ NN_data.run_list List_ <-> Run ∈ NN_data.FeatureRow.Run <$> List_.
Proof.
  unfold NN_data.run_list.
  assert (forall X : gset Z,
    Run ∈ foldl (fun runs shower => runs ∪ {[NN_data.FeatureRow.Run shower]}) X List_
    <-> Run ∈ X ∨ Run ∈ NN_data.FeatureRow.Run <$> List_) as H.
  { induction List_ as [|r l IH]; intros X; simpl.
    - rewrite elem_of_nil. tauto.
    - rewrite IH, elem_of_union, elem_of_singleton, elem_of_cons. tauto. }
  rewrite H, elem_of_empty. tauto.
Qed.

Lemma rows_of_run_nonempty (List_ : list NN_data.FeatureRow.t) Run :
  Run ∈ NN_data.run_list List_ -> exists k, length (rows_of_run Run List_) = S k.
Proof.
  intros H. apply elem_of_run_list, list_elem_of_fmap in H as (r & -> & Hr).
  assert (r ∈ rows_of_run (NN_data.FeatureRow.Run r) List_) as Hin
    by (apply list_elem_of_filter; done).
  destruct (rows_of_run (NN_data.FeatureRow.Run r) List_) as [|r0 l].
  - by apply elem_of_nil in Hin.
  - by exists (length l).
Qed.

(** The totals of a run are the left-to-right sums over its rows, and
    [nShowers] is the count of these rows. *)
Lemma run_totals_sums (List_ : list NN_data.FeatureRow.t) Run :
  let rows := rows_of_run Run List_ in
  let t := NN_data.run_totals List_ Run in
  NN_data.nShowers t = count_up (length rows) ∧
  NN_data.Energy_tot t = fsum (NN_data.FeatureRow.Energy <$> rows) ∧
  NN_data.Zen_tot t = fsum (NN_data.FeatureRow.Zen <$> rows) ∧
  NN_data.TimeDelay_tot t = fsum (NN_data.FeatureRow.TimeDelay <$> rows) ∧
  NN_data.Q_tot t = fsum (NN_data.FeatureRow.Q <$> rows) ∧
  NN_data.MuonVEM_tot t = fsum (NN_data.FeatureRow.MuonVEM <$> rows) ∧
  NN_data.nMuons_tot t = fsum (NN_data.FeatureRow.nMuons <$> rows).
Proof.
  unfold NN_data.run_totals, rows_of_run.
  rewrite (foldl_filter_decide (fun row => NN_data.FeatureRow.Run row = Run)).
  induction (filter _ List_) as [|r l IH] using rev_ind; [done|].
  rewrite foldl_app, !fmap_app, length_app. simpl.
  rewrite !fsum_snoc, Nat.add_1_r. simpl.
  destruct IH as (-> & -> & -> & -> & -> & -> & ->). done.
Qed.

Lemma run_avg_mean (List_ : list NN_data.FeatureRow.t) (Type_ : string) Run :
  counts N -> Run ∈ NN_data.run_list List_ ->
  NN_data.run_avg List_ Type_ Run = OK (mean_row List_ Type_ Run).
Proof.
  intros Hcount HRun. unfold NN_data.run_avg, mean_row, mean.
  destruct (run_totals_sums List_ Run) as (-> & -> & -> & -> & -> & -> & ->).
  destruct (rows_of_run_nonempty _ _ HRun) as [k ->].
  unfold n_div. rewrite Hcount. done.
Qed.

Lemma avg_runs_means (List_ : list NN_data.FeatureRow.t) (Type_ : string) :
  counts N ->
  NN_data.avg_runs List_ Type_
  = OK (mean_row List_ Type_ <$> elements (NN_data.run_list List_)).
Proof.
  intros Hcount. unfold NN_data.avg_runs.
  rewrite (for_each_foldl _ (fun avgList Run => avgList ++ [mean_row List_ Type_ Run])).
  - by rewrite foldl_snoc_fmap.
  - intros Run HRun avgList. rewrite run_avg_mean; [done..|].
    by apply elem_of_elements.
Qed.

Lemma elements_run_list (List_ : list NN_data.FeatureRow.t) :
  elements (NN_data.run_list List_) ≡ₚ distinct_runs List_.
Proof.
  apply NoDup_Permutation.
  - apply NoDup_elements.
  - apply NoDup_remove_dups.
  - intros Run. unfold distinct_runs.
    by rewrite elem_of_elements, elem_of_remove_dups, elem_of_run_list.
Qed.

Lemma run_list_replicate (row : NN_data.FeatureRow.t) (n : nat) :
  NN_data.run_list (replicate (S n) row) = {[ NN_data.FeatureRow.Run row ]}.
Proof.
  apply set_eq. intros Run.
  rewrite elem_of_run_list, fmap_replicate, elem_of_replicate, elem_of_singleton.
  split; [by intros [-> _] | by intros ->].
Qed.

Lemma rows_of_run_replicate (row : NN_data.FeatureRow.t) (n : nat) :
  rows_of_run (NN_data.FeatureRow.Run row) (replicate n row) = replicate n row.
Proof.
  unfold rows_of_run. induction n as [|n IH]; [done|]. simpl.
  rewrite filter_cons, decide_True by done. by rewrite IH.
Qed.
End Averages.

(** ** The two number systems *)

Section Rational.
#[local] Existing Instance rational.
Open Scope Qc_scope.

Lemma rational_count_up_nonneg (n : nat) : 0 ≤ count_up n.
Proof.
  induction n as [|n IH]; [done|]. simpl.
  apply Qclt_le_weak, Qcplus_nonneg_pos; done.
Qed.

Lemma rational_count_up_nonzero (n : nat) : count_up (S n) ≠ 0.
Proof.
  simpl. intros H.
  assert (0 < count_up n + 1) as Hpos
    by (apply Qcplus_nonneg_pos; [apply rational_count_up_nonneg | done]).
  rewrite H in Hpos. by apply Qclt_not_eq in Hpos.
Qed.

Lemma rational_counts : counts rational.
Proof.
  intros n. apply bool_decide_eq_false, rational_count_up_nonzero.
Qed.

Lemma rational_foldl_replicate (a x : Qc) (n : nat) :
  foldl Qcplus a (replicate n x) = a + x * count_up n.
Proof.
  revert a. induction n as [|n IH]; intros a; simpl.
  - ring.
  - rewrite IH. ring.
Qed.

(** In exact arithmetic the mean of [n + 1] copies of [x] is [x]. *)
Lemma rational_mean_replicate (x : Qc) (n : nat) :
  n_quot (fsum (replicate (S n) x)) (count_up (S n)) = x.
Proof.
  unfold fsum. change (foldl n_add lit_0) with (foldl Qcplus 0).
  rewrite rational_foldl_replicate, Qcplus_0_l.
  apply Qcdiv_mult_l, rational_count_up_nonzero.
Qed.
End Rational.

(** ** Counting in binary64 *)

Section Binary64.
#[local] Existing Instance binary64.

Lemma iter_pos_nat {A : Type} (f : A -> A) (p : positive) (x : A) :
  SpecFloat.iter_pos f p x = Nat.iter (Pos.to_nat p) f x.
Proof.
  revert x. induction p as [p IH|p IH|]; intros x; cbn [SpecFloat.iter_pos].
  - rewrite !IH, Pos2Nat.inj_xI.
    replace (S (2 * Pos.to_nat p)) with (S (Pos.to_nat p + Pos.to_nat p)) by lia.
    by rewrite Nat.iter_succ_r, Nat.iter_add.
  - rewrite !IH, Pos2Nat.inj_xO.
    replace (2 * Pos.to_nat p) with (Pos.to_nat p + Pos.to_nat p) by lia.
    by rewrite Nat.iter_add.
  - done.
Qed.

(** One right shift of a mantissa of at least two digits leaves a
    positive mantissa with one digit less. *)
Lemma shr_1_positive (p : positive) (r s : bool) :
  (1 < digits2_pos p)%positive ->
  exists p' r' s',
    shr_1 {| shr_m := Zpos p; shr_r := r; shr_s := s |}
    = {| shr_m := Zpos p'; shr_r := r'; shr_s := s' |}
    ∧ Pos.succ (digits2_pos p') = digits2_pos p.
Proof.
  destruct p as [p|p|]; simpl; intros Hd.
  - by exists p, true, (r || s).
  - by exists p, false, (r || s).
  - lia.
Qed.

Lemma shr_iter_positive (k : nat) (p : positive) (r s : bool) :
  k < Pos.to_nat (digits2_pos p) ->
  exists p' r' s',
    Nat.iter k shr_1 {| shr_m := Zpos p; shr_r := r; shr_s := s |}
    = {| shr_m := Zpos p'; shr_r := r'; shr_s := s' |}
    ∧ Pos.to_nat (digits2_pos p') + k = Pos.to_nat (digits2_pos p).
Proof.
  induction k as [|k IH]; intros Hk; simpl.
  - exists p, r, s. split; [done | lia].
  - destruct IH as (p' & r' & s' & -> & Hd); [lia|].
    destruct (shr_1_positive p' r' s') as (p'' & r'' & s'' & -> & Hd'); [lia|].
    exists p'', r'', s''. split; [done | lia].
Qed.

(** Above the smallest exponent, the shift that [shr_fexp] applies
    never exhausts the mantissa. *)
Lemma shr_fexp_positive (p : positive) (e : Z) (l : location) :
  (-1074 ≤ e)%Z ->
  exists p' r' s' e',
    shr_fexp prec emax (Zpos p) e l
    = ({| shr_m := Zpos p'; shr_r := r'; shr_s := s' |}, e') ∧ (-1074 ≤ e')%Z.
Proof.
  intros He. unfold shr_fexp, shr.
  destruct (fexp prec emax (Zdigits2 (Z.pos p) + e) - e)%Z as [|k|k] eqn:Hn.
  1, 3: destruct l as [|[]]; simpl; eauto 10.
  assert (Pos.to_nat k < Pos.to_nat (digits2_pos p)) as Hk.
  { unfold fexp, SpecFloat.emin, prec, emax in Hn. simpl in Hn. lia. }
  rewrite iter_pos_nat.
  destruct l as [|[]]; simpl;
    edestruct shr_iter_positive as (p' & r' & s' & -> & _); try exact Hk;
    exists p', r', s'; eexists; (split; [reflexivity | lia]).
Qed.

Lemma round_nearest_even_positive (p : positive) (l : location) :
  exists p', round_nearest_even (Zpos p) l = Zpos p'.
Proof.
  destruct l as [|[]]; simpl; eauto.
  destruct p; simpl; eauto.
Qed.

Lemma binary_round_aux_positive (p : positive) (e : Z) (l : location) :
  (-1074 ≤ e)%Z -> positive_SF (binary_round_aux prec emax false (Zpos p) e l).
Proof.
  intros He. unfold binary_round_aux.
  destruct (shr_fexp_positive p e l He) as (p1 & r1 & s1 & e1 & -> & He1).
  cbn [shr_m].
  destruct (round_nearest_even_positive p1
              (loc_of_shr_record {| shr_m := Zpos p1; shr_r := r1; shr_s := s1 |}))
    as [p2 ->].
  destruct (shr_fexp_positive p2 e1 loc_Exact He1) as (p3 & r3 & s3 & e3 & -> & _).
  cbn [shr_m]. destruct (e3 <=? emax - prec)%Z; done.
Qed.

Lemma binary_round_positive (p : positive) (e : Z) :
  (-1074 ≤ e)%Z -> positive_SF (binary_round prec emax false p e).
Proof.
  intros He. unfold binary_round, shl_align.
  destruct (fexp prec emax (Z.pos (digits2_pos p) + e) - e)%Z eqn:Hn;
    apply binary_round_aux_positive; try done.
  unfold fexp, SpecFloat.emin, prec, emax. simpl. lia.
Qed.

Lemma valid_exponent (s : bool) (m : positive) (e : Z) :
  valid_binary (S754_finite s m e) = true -> (-1074 ≤ e)%Z.
Proof.
  unfold SpecFloat.valid_binary, bounded, canonical_mantissa.
  intros [Hc _]%andb_prop. apply Z.eqb_eq in Hc.
  unfold fexp, SpecFloat.emin, prec, emax in Hc. simpl in Hc. lia.
Qed.

Lemma SFadd_positive (x y : spec_float) :
  valid_binary x = true -> valid_binary y = true ->
  positive_SF x -> positive_SF y -> positive_SF (SFadd prec emax x y).
Proof.
  destruct x as [| [] | | [] mx ex], y as [| [] | | [] my ey]; try done.
  intros Hx%valid_exponent Hy%valid_exponent _ _.
  unfold SFadd, cond_Zopp, binary_normalize. simpl Z.add.
  apply binary_round_positive. lia.
Qed.

Lemma count_up_positive (n : nat) : positive_SF (Prim2SF (count_up (S n))).
Proof.
  induction n as [|n IH]; [by vm_compute|].
  change (count_up (S (S n))) with (count_up (S n) + 1)%float.
  rewrite add_spec. apply SFadd_positive; try apply Prim2SF_valid; [done|].
  by vm_compute.
Qed.

(** A binary64 counter that was incremented is never zero: it counts
    exactly up to [2^53] and stays there. *)
Lemma binary64_counts : counts binary64.
Proof.
  intros n. change (PrimFloat.eqb (count_up (S n)) 0 = false).
  rewrite FloatAxioms.eqb_spec. pose proof (count_up_positive n) as Hpos.
  change (Prim2SF 0) with (S754_zero false).
  destruct (Prim2SF _) as [| [] | | [] m e]; done.
Qed.
End Binary64.

(** ** Loops that collect one row per element *)

Lemma for_each_collect {A B : Type} (h : A -> res B) (l : list A) (acc out : list B) :
  for_each (fun acc0 x => row ← h x; mret (acc0 ++ [row])) l acc = OK out
  <-> exists rows, out = acc ++ rows ∧ Forall2 (fun x row => h x = OK row) l rows.
Proof.
  revert acc. induction l as [|x l IH]; intros acc; simpl.
  - split.
    + intros [= <-]. exists []. by rewrite app_nil_r.
    + intros (rows & -> & ->%Forall2_nil_inv_l). by rewrite app_nil_r.
  - destruct (h x) as [row|e] eqn:Hx; simpl.
    + rewrite IH. split.
      * intros (rows & -> & Hrows). exists (row :: rows).
        split; [by rewrite <- app_assoc | by constructor].
      * intros (rows & -> & Hrows).
        apply Forall2_cons_inv_l in Hrows as (row' & rows' & Hrow & Hrows & ->).
        assert (row' = row) as -> by congruence.
        exists rows'. split; [by rewrite <- app_assoc | done].
    + split; [discriminate|].
      intros (rows & _ & Hrows).
      apply Forall2_cons_inv_l in Hrows as (row' & rows' & Hrow & _). congruence.
Qed.

Lemma for_each_collect_raise {A B : Type} (h : A -> res B) (l : list A) (acc : list B) (e : exn) :
  for_each (fun acc0 x => row ← h x; mret (acc0 ++ [row])) l acc = Raise e ->
  exists x, x ∈ l ∧ h x = Raise e.
Proof.
  intros (acc0 & x & Hx & H)%for_each_raise. exists x. split; [done|].
  destruct (h x); simpl in H; [discriminate H | by injection H as ->].
Qed.

(** * The properties of the specification *)

Section Specification.
Context {N : Num}.

(** C1, amended.  With every read in range, the loop of [NN_data.py]
    adds to its four running sums exactly the detectors with
    [LatDist[i] >= 400] and [TotalPE[i] != 0], in index order, and the
    loop of [neural_network_data.py] exactly those with
    [LatDist[i] > 400] and [TotalPE[i] != 0].  A detector that fails the
    cut contributes to none of the sums: two showers that differ only in
    the signals of such detectors have the same sums. *)
Theorem selection_rule (shower : Shower) :
  covers shower ->
  NN_data.shower_sums shower
  = OK (foldl (include shower) no_sums (selected passes_ge shower))
  ∧ neural_network_data.shower_sums shower
    = OK (foldl (include400 shower) no_sums400 (selected passes_gt shower))
  ∧ (forall i, i ∈ selected passes_ge shower
       <-> i < n_detectors shower
           ∧ n_ge (lateral_distance shower i) lit_400 = true
           ∧ n_ne (total_PE shower i) lit_0 = true)
  ∧ (forall i, i ∈ selected passes_gt shower
       <-> i < n_detectors shower
           ∧ n_gt (lateral_distance shower i) lit_400 = true
           ∧ n_ne (total_PE shower i) lit_0 = true)
  ∧ (forall shower', covers shower' -> same_selected passes_ge shower shower' ->
       NN_data.shower_sums shower' = NN_data.shower_sums shower)
  ∧ (forall shower', covers shower' -> same_selected passes_gt shower shower' ->
       neural_network_data.shower_sums shower'
       = neural_network_data.shower_sums shower).
Proof.
  intros Hc. repeat apply conj.
  - by apply shower_sums_covered.
  - by apply shower_sums400_covered.
  - intros i. rewrite elem_of_selected. unfold passes_ge.
    by rewrite andb_true_iff.
  - intros i. rewrite elem_of_selected. unfold passes_gt.
    by rewrite andb_true_iff.
  - intros shower' Hc' Hsame. by apply same_selected_sums.
  - intros shower' Hc' Hsame. by apply same_selected_sums400.
Qed.

(** C2.  The charge sum and the time-delay sum of a row are the sums of
    [total_VEM[i]] and of [abs(time_delay[i])] over the selected
    detectors whose [total_VEM] is in [0.6, 2.0], and over no other
    detector, while the two muon sums run over all the selected
    detectors; so a selected detector whose charge is above 2.0, such
    as 2.1, is in the muon sums and in neither of the other two. *)
Theorem band_sums (shower : Shower) :
  covers shower ->
  (exists row,
     NN_data.shower_row shower = OK row
     ∧ NN_data.FeatureRow.Q row
       = fsum (total_VEM shower <$> selected_in_band passes_ge shower)
     ∧ NN_data.FeatureRow.TimeDelay row
       = fsum ((fun i => n_abs (time_delay shower i))
                 <$> selected_in_band passes_ge shower)
     ∧ NN_data.FeatureRow.MuonVEM row
       = fsum (scaled_muon_PE shower <$> selected passes_ge shower)
     ∧ NN_data.FeatureRow.nMuons row
       = fsum (muon_count shower <$> selected passes_ge shower))
  ∧ (exists row,
       neural_network_data.shower_row shower = OK row
       ∧ neural_network_data.FeatureRow.Q400 row
         = fsum (total_VEM shower <$> selected_in_band passes_gt shower)
       ∧ neural_network_data.FeatureRow.MuonVEM row
         = fsum (scaled_muon_PE shower <$> selected passes_gt shower)
       ∧ neural_network_data.FeatureRow.nMuon row
         = fsum (muon_count shower <$> selected passes_gt shower))
  ∧ (forall passes i,
       i ∈ selected_in_band passes shower
       <-> i ∈ selected passes shower
           ∧ n_ge (total_VEM shower i) lit_0_6 = true
           ∧ n_le (total_VEM shower i) lit_2_0 = true)
  ∧ (forall passes i,
       n_le (total_VEM shower i) lit_2_0 = false ->
       i ∉ selected_in_band passes shower).
Proof.
  intros Hc.
  assert (forall passes i,
    i ∈ selected_in_band passes shower
    <-> i ∈ selected passes shower
        ∧ n_ge (total_VEM shower i) lit_0_6 = true
        ∧ n_le (total_VEM shower i) lit_2_0 = true) as Hband.
  { intros passes i. rewrite elem_of_selected_in_band. unfold in_band.
    by rewrite andb_true_iff. }
  repeat apply conj.
  - eexists. split; [by apply shower_row_covered|]. cbn.
    by rewrite foldl_include_Q, foldl_include_TimeDelay,
      foldl_include_MuonVEM, foldl_include_nMuons.
  - eexists. split; [by apply shower_row400_covered|]. cbn.
    by rewrite foldl_include400_Q400, foldl_include400_MuonVEM,
      foldl_include400_nMuon.
  - exact Hband.
  - intros passes i Hle (_ & _ & Hle')%Hband. congruence.
Qed.

(** C3.  The scaled muon sum of a row is the sum of
    [(total_VEM[i] / total_PE[i]) * muon_PE[i]] and the muon count sum is
    the sum of [muon_count[i]], both over all the selected detectors,
    whatever their charge. *)
Theorem muon_sums (shower : Shower) :
  covers shower ->
  (exists row,
     NN_data.shower_row shower = OK row
     ∧ NN_data.FeatureRow.MuonVEM row
       = fsum ((fun i => n_mul (n_quot (total_VEM shower i) (total_PE shower i))
                           (muon_PE shower i))
                 <$> selected passes_ge shower)
     ∧ NN_data.FeatureRow.nMuons row
       = fsum (muon_count shower <$> selected passes_ge shower))
  ∧ (exists row,
       neural_network_data.shower_row shower = OK row
       ∧ neural_network_data.FeatureRow.MuonVEM row
         = fsum ((fun i => n_mul (n_quot (total_VEM shower i) (total_PE shower i))
                             (muon_PE shower i))
                   <$> selected passes_gt shower)
       ∧ neural_network_data.FeatureRow.nMuon row
         = fsum (muon_count shower <$> selected passes_gt shower)).
Proof.
  intros Hc. split.
  - eexists. split; [by apply shower_row_covered|]. cbn.
    by rewrite foldl_include_MuonVEM, foldl_include_nMuons.
  - eexists. split; [by apply shower_row400_covered|]. cbn.
    by rewrite foldl_include400_MuonVEM, foldl_include400_nMuon.
Qed.

(** C10.  [process_showers] returns [rows] exactly when [rows] holds the
    row of each shower, one per shower and in the order of the input;
    and it does return when the reads of every shower are in range. *)
Theorem process_showers_rows (showers : list Shower) (rows : list NN_data.FeatureRow.t) :
  (NN_data.process_showers showers = OK rows
   <-> Forall2 (fun shower row => NN_data.shower_row shower = OK row) showers rows)
  ∧ (NN_data.process_showers showers = OK rows ->
     length rows = length showers
     ∧ forall i shower, showers !! i = Some shower ->
         exists row, rows !! i = Some row ∧ NN_data.shower_row shower = OK row)
  ∧ (Forall covers showers ->
     exists rows', NN_data.process_showers showers = OK rows').
Proof.
  assert (NN_data.process_showers showers = OK rows
          <-> Forall2 (fun shower row => NN_data.shower_row shower = OK row)
                showers rows) as Hiff.
  { unfold NN_data.process_showers. rewrite for_each_collect. split.
    - by intros (rows' & -> & H).
    - intros H. by exists rows. }
  split; [exact Hiff|]. split.
  - intros H%Hiff. split.
    + symmetry. by eapply Forall2_length.
    + intros i shower Hi.
      destruct (Forall2_lookup_l _ _ _ _ _ H Hi) as (row & Hrow & Hok). eauto.
  - clear rows Hiff. intros Hc. unfold NN_data.process_showers.
    induction showers as [|shower showers' IH] using rev_ind; [by exists []|].
    apply Forall_app in Hc as [Hc Hc1]. rewrite Forall_singleton in Hc1.
    destruct (IH Hc) as [rows' Hrows'].
    rewrite for_each_app, Hrows'. cbn.
    rewrite (shower_row_covered shower Hc1). cbn. eauto.
Qed.

(** C5.  In a number system that counts, [avg_runs] returns, for every
    table, one row per distinct run number of the table (its run numbers
    are the distinct run numbers, each once), so as many rows as there
    are distinct run numbers, and every row carries the label passed as
    argument. *)
Theorem one_row_per_run (List_ : list NN_data.FeatureRow.t) (Type_ : string) :
  counts N ->
  exists avgList,
    NN_data.avg_runs List_ Type_ = OK avgList
    ∧ NN_data.FeatureRow.Run <$> avgList ≡ₚ distinct_runs List_
    ∧ length avgList = length (distinct_runs List_)
    ∧ Forall (fun row => NN_data.FeatureRow.Type_ row = Type_) avgList.
Proof.
  intros Hcount. eexists. split; [by apply avg_runs_means|].
  assert (NN_data.FeatureRow.Run <$> (mean_row List_ Type_ <$> elements (NN_data.run_list List_))
          = elements (NN_data.run_list List_)) as Hruns.
  { induction (elements _) as [|Run l IH]; [done|]. cbn. by rewrite IH. }
  repeat apply conj.
  - rewrite Hruns. apply elements_run_list.
  - rewrite <- (length_fmap NN_data.FeatureRow.Run), Hruns.
    apply Permutation_length, elements_run_list.
  - apply Forall_fmap, Forall_true. done.
Qed.

(** C8.  No division of the scripts can raise: the extractors divide by
    [TotalPE[i]] only after the test [TotalPE[i] != 0], and for every run
    number that [avg_runs] visits the divisor [nShowers] is the count of
    at least one row, which is not zero in a number system that counts. *)
Theorem divisions_guarded :
  (forall shower : Shower,
     NN_data.shower_row shower ≠ Raise ZeroDivisionError
     ∧ neural_network_data.shower_row shower ≠ Raise ZeroDivisionError)
  ∧ (forall showers : list Shower,
       NN_data.process_showers showers ≠ Raise ZeroDivisionError)
  ∧ (forall (List_ : list NN_data.FeatureRow.t) (Run : Z),
       Run ∈ NN_data.run_list List_ ->
       exists k, length (rows_of_run Run List_) = S k
                 ∧ NN_data.nShowers (NN_data.run_totals List_ Run) = count_up (S k))
  ∧ (counts N ->
     forall (List_ : list NN_data.FeatureRow.t) (Type_ : string),
       NN_data.avg_runs List_ Type_ ≠ Raise ZeroDivisionError).
Proof.
  assert (forall shower : Shower,
            NN_data.shower_row shower ≠ Raise ZeroDivisionError) as Hrow.
  { intros shower H%shower_row_raise%shower_sums_raise. by destruct H. }
  repeat apply conj.
  - intros shower. split; [apply Hrow|].
    intros H%shower_row400_raise%shower_sums400_raise. by destruct H.
  - intros showers (shower & _ & H)%for_each_collect_raise. by apply Hrow in H.
  - intros List_ Run HRun.
    destruct (rows_of_run_nonempty _ _ HRun) as [k Hk]. exists k.
    split; [done|]. rewrite <- Hk. apply run_totals_sums.
  - intros Hcount List_ Type_. by rewrite avg_runs_means.
Qed.

(** C6, amended.  On an empty table [avg_runs] raises nothing: there is
    no run number to visit and it returns the empty list. *)
Theorem avg_runs_empty (Type_ : string) :
  NN_data.avg_runs (N:=N) [] Type_ = OK [].
Proof.
  unfold NN_data.avg_runs. cbn [NN_data.run_list foldl].
  by rewrite elements_empty.
Qed.

(** C7, amended.  The extractors check no shape.  They read the
    positions below [len(Tank)] of each sequence: when every sequence is
    at least that long they return a row, whether or not the lengths
    agree; when [LatDist] is shorter than [Tank] they raise [IndexError];
    and [IndexError], from a read past the end of a sequence, is the
    only exception they can raise. *)
Theorem mismatched_lengths (shower : Shower) :
  (covers shower ->
   (exists row, NN_data.shower_row shower = OK row)
   ∧ (exists row, neural_network_data.shower_row shower = OK row))
  ∧ (length (Signals.LatDist (Signals shower)) < n_detectors shower ->
     NN_data.shower_row shower = Raise IndexError
     ∧ neural_network_data.shower_row shower = Raise IndexError)
  ∧ (forall e,
       NN_data.shower_row shower = Raise e
       ∨ neural_network_data.shower_row shower = Raise e ->
       e = IndexError ∧ ¬ covers shower).
Proof.
  repeat apply conj.
  - intros Hc. split; eexists.
    + by apply shower_row_covered.
    + by apply shower_row400_covered.
  - intros Hshort. split.
    + by apply shower_row_raise, shower_sums_short.
    + by apply shower_row400_raise, shower_sums400_short.
  - intros e [H%shower_row_raise|H%shower_row400_raise].
    + by apply shower_sums_raise.
    + by apply shower_sums400_raise.
Qed.

(** C9, amended.  [process_shower] does have an effect: a call that
    returns appends the row of its shower, and nothing else, to the
    module-level list [NNdata400], leaving [NNdata300] and the earlier
    entries as they were; a call that raises leaves the globals
    unchanged.  The loop of the script over a data set therefore ends
    with the rows of all its showers appended in order. *)
Theorem process_shower_effect (shower : Shower) (g : neural_network_data.globals) :
  (forall r g',
     neural_network_data.process_shower shower g = (r, g') ->
     neural_network_data.NNdata300 g' = neural_network_data.NNdata300 g
     ∧ match r with
       | OK _ =>
           exists row,
             neural_network_data.shower_row shower = OK row
             ∧ neural_network_data.NNdata400 g'
               = neural_network_data.NNdata400 g ++ [row]
       | Raise e =>
           neural_network_data.shower_row shower = Raise e ∧ g' = g
       end)
  ∧ (forall showers g',
       neural_network_data.process_all showers g = (OK (), g')
       <-> exists rows,
             Forall2 (fun shower row => neural_network_data.shower_row shower = OK row)
               showers rows
             ∧ g' = {| neural_network_data.NNdata300 := neural_network_data.NNdata300 g;
                       neural_network_data.NNdata400 :=
                         neural_network_data.NNdata400 g ++ rows |}).
Proof.
  split.
  - intros r g'. unfold neural_network_data.process_shower.
    destruct (neural_network_data.shower_row shower) as [row|e];
      intros [= <- <-]; cbn; eauto.
  - intros showers. revert g.
    induction showers as [|shower' showers IH]; intros g g'; cbn.
    + split.
      * intros [= <-]. exists []. split; [constructor|].
        rewrite app_nil_r. by destruct g.
      * intros (rows & ->%Forall2_nil_inv_l & ->). rewrite app_nil_r. by destruct g.
    + unfold neural_network_data.process_shower.
      destruct (neural_network_data.shower_row shower') as [row|e] eqn:Hrow.
      * rewrite IH. cbn. split.
        -- intros (rows & Hrows & ->). exists (row :: rows).
           split; [by constructor | by rewrite <- app_assoc].
        -- intros (rows & Hrows & ->).
           apply Forall2_cons_inv_l in Hrows as (row' & rows' & Hrow' & Hrows & ->).
           assert (row' = row) as -> by congruence.
           exists rows'. split; [done | by rewrite <- app_assoc].
      * split; [discriminate|].
        intros (rows & Hrows & _).
        apply Forall2_cons_inv_l in Hrows as (row' & rows' & Hrow' & _). congruence.
Qed.
End Specification.

(** C4, amended.  In a number system that counts, [avg_runs] returns for
    each run number of the table the row of the means of the rows with
    that number, each mean being the left-to-right sum of the column
    divided by the count of the rows.  For [n + 1] copies of one row this
    is a single row whose fields are the sum of [n + 1] copies of the
    field divided by the count [n + 1]; in exact rational arithmetic that
    quotient is the field itself. *)
Theorem run_means :
  (forall N : Num, counts N ->
     forall (List_ : list NN_data.FeatureRow.t) (Type_ : string),
     exists avgList,
       NN_data.avg_runs List_ Type_ = OK avgList
       ∧ forall row,
           row ∈ avgList
           <-> exists Run, Run ∈ NN_data.FeatureRow.Run <$> List_
                           ∧ row = mean_row List_ Type_ Run)
  ∧ (forall N : Num, counts N ->
       forall (row : NN_data.FeatureRow.t) (n : nat) (Type_ : string),
         NN_data.avg_runs (replicate (S n) row) Type_
         = OK [mean_of_copies (S n) row Type_])
  ∧ (forall (row : @NN_data.FeatureRow.t rational) (n : nat) (Type_ : string),
       NN_data.avg_runs (replicate (S n) row) Type_ = OK [relabel Type_ row]).
Proof.
  assert (forall N : Num, counts N ->
    forall (row : NN_data.FeatureRow.t) (n : nat) (Type_ : string),
      NN_data.avg_runs (replicate (S n) row) Type_
      = OK [mean_of_copies (S n) row Type_]) as Hcopies.
  { intros N Hcount row n Type_.
    rewrite avg_runs_means, run_list_replicate, elements_singleton by done.
    cbn [fmap list_fmap]. unfold mean_row, mean, mean_of_copies.
    by rewrite rows_of_run_replicate, !fmap_replicate, length_replicate. }
  repeat apply conj.
  - intros N Hcount List_ Type_. eexists. split; [by apply avg_runs_means|].
    intros row. rewrite list_elem_of_fmap. split.
    + intros (Run & -> & HRun%elem_of_elements%elem_of_run_list). eauto.
    + intros (Run & HRun & ->). exists Run.
      split; [done|]. by apply elem_of_elements, elem_of_run_list.
  - exact Hcopies.
  - intros row n Type_. rewrite (Hcopies rational rational_counts).
    unfold mean_of_copies, relabel. by rewrite !rational_mean_replicate.
Qed.

(** * The properties on sample records *)

Section Evaluation.
#[local] Existing Instance binary64.
Open Scope float_scope.

Ltac covered := repeat split; cbn; lia.

(** The end-to-end example of the specification. *)
Example end_to_end :
  NN_data.process_showers [shower_AB]
  = OK [ {| NN_data.FeatureRow.Run := 12; NN_data.FeatureRow.Energy := 7.5;
            NN_data.FeatureRow.Zen := 0.25; NN_data.FeatureRow.TimeDelay := 3;
            NN_data.FeatureRow.Q := 1; NN_data.FeatureRow.MuonVEM := 0.5;
            NN_data.FeatureRow.nMuons := 2; NN_data.FeatureRow.Type_ := "PPlus" |} ].
Proof. vm_compute. reflexivity. Qed.

(** A detector with 2.1 VEM counts for the muon sums only. *)
Example above_band :
  in_band 2.1 = false
  ∧ NN_data.shower_sums shower_above_band
    = OK {| NN_data.TimeDelay := 0; NN_data.Q := 0;
            NN_data.MuonVEM := 1.05; NN_data.nMuons := 2 |}.
Proof. split; vm_compute; reflexivity. Qed.

(** A detector without photoelectrons is skipped before the division. *)
Example no_PE_skipped :
  NN_data.shower_sums shower_no_PE = NN_data.shower_sums shower_AB.
Proof. vm_compute. reflexivity. Qed.

(** Two rows of one run with charge sums 1.0 and 3.0 average to 2.0. *)
Example mean_of_two :
  NN_data.avg_runs [charge_row 5 1; charge_row 5 3] "PPlus" = OK [charge_row 5 2].
Proof. vm_compute. reflexivity. Qed.

(** The selection rule on the shower of detectors A and B. *)
Lemma selection_rule_witness :
  covers shower_AB
  ∧ NN_data.shower_sums shower_AB
    = OK (foldl (include shower_AB) no_sums (selected passes_ge shower_AB)).
Proof.
  assert (covers shower_AB) as Hc by covered.
  split; [exact Hc | exact (proj1 (selection_rule shower_AB Hc))].
Defined.

(** C1, as stated, fails for [process_shower]: a detector at exactly 400
    with photoelectrons satisfies [LatDist >= 400 and TotalPE != 0], and
    [NN_data.py] includes it, but [neural_network_data.py] leaves its
    three sums at zero. *)
Lemma strict_cut_excludes_400 :
  passes_ge shower_at_cut 0%nat = true
  ∧ NN_data.shower_sums shower_at_cut
    = OK {| NN_data.TimeDelay := 3; NN_data.Q := 1;
            NN_data.MuonVEM := 0.5; NN_data.nMuons := 2 |}
  ∧ neural_network_data.shower_sums shower_at_cut
    = OK {| neural_network_data.Q400 := 0; neural_network_data.MuonVEM := 0;
            neural_network_data.nMuon := 0 |}.
Proof. repeat split; vm_compute; reflexivity. Qed.

(** The detector with 2.1 VEM is selected and is not in the band. *)
Lemma band_sums_witness :
  covers shower_above_band
  ∧ 0%nat ∈ selected passes_ge shower_above_band
  ∧ 0%nat ∉ selected_in_band passes_ge shower_above_band.
Proof.
  assert (covers shower_above_band) as Hc by covered.
  split; [exact Hc|]. split.
  - apply elem_of_selected. split; [cbn; lia | vm_compute; reflexivity].
  - apply (proj2 (proj2 (proj2 (band_sums shower_above_band Hc)))).
    vm_compute. reflexivity.
Defined.

(** The muon sums of the shower of detectors A and B. *)
Lemma muon_sums_witness :
  covers shower_AB
  ∧ exists row,
      NN_data.shower_row shower_AB = OK row
      ∧ NN_data.FeatureRow.MuonVEM row = 0.5 ∧ NN_data.FeatureRow.nMuons row = 2.
Proof.
  assert (covers shower_AB) as Hc by covered.
  split; [exact Hc|].
  destruct (proj1 (muon_sums shower_AB Hc)) as (row & Hrow & HM & Hn).
  exists row. split; [exact Hrow|]. split.
  - rewrite HM. vm_compute. reflexivity.
  - rewrite Hn. vm_compute. reflexivity.
Defined.

(** Two showers give two rows. *)
Lemma process_showers_rows_witness :
  length [shower_AB; shower_above_band] = 2%nat
  ∧ exists rows,
      NN_data.process_showers [shower_AB; shower_above_band] = OK rows
      ∧ length rows = 2%nat.
Proof.
  split; [reflexivity|].
  destruct (NN_data.process_showers [shower_AB; shower_above_band])
    as [rows|e] eqn:Hrows; [|vm_compute in Hrows; discriminate Hrows].
  exists rows. split; [reflexivity|].
  exact (proj1 (proj1 (proj2 (process_showers_rows _ rows)) Hrows)).
Defined.

(** Three rows of two runs are averaged to two rows. *)
Lemma one_row_per_run_witness :
  counts binary64
  ∧ exists avgList,
      NN_data.avg_runs [flat_row 1 0.1; flat_row 2 1; flat_row 1 3] "Fe56Nucleus"
      = OK avgList
      ∧ length avgList = 2%nat.
Proof.
  split; [exact binary64_counts|].
  destruct (one_row_per_run [flat_row 1 0.1; flat_row 2 1; flat_row 1 3]
              "Fe56Nucleus" binary64_counts) as (avgList & Havg & _ & Hlen & _).
  exists avgList. split; [exact Havg | exact Hlen].
Defined.

(** Averaging two rows in binary64 raises no [ZeroDivisionError]. *)
Lemma divisions_guarded_witness :
  counts binary64
  ∧ NN_data.avg_runs [flat_row 1 0.1; flat_row 2 1] "PPlus" ≠ Raise ZeroDivisionError.
Proof.
  split; [exact binary64_counts|].
  exact (proj2 (proj2 (proj2 divisions_guarded)) binary64_counts _ _).
Defined.

(** Three copies of a row of tenths: the general formula in binary64, and
    the row itself over the rationals. *)
Lemma run_means_witness :
  counts binary64
  ∧ NN_data.avg_runs (replicate 3 (flat_row 7 0.1)) "PPlus"
    = OK [mean_of_copies 3 (flat_row 7 0.1) "PPlus"]
  ∧ NN_data.avg_runs (replicate 3 (flat_row_Q 7 (Q2Qc (1 # 10)))) "PPlus"
    = OK [flat_row_Q 7 (Q2Qc (1 # 10))].
Proof.
  split; [exact binary64_counts|]. split.
  - exact (proj1 (proj2 run_means) binary64 binary64_counts (flat_row 7 0.1) 2%nat "PPlus").
  - exact (proj2 (proj2 run_means) (flat_row_Q 7 (Q2Qc (1 # 10))) 2%nat "PPlus").
Defined.

(** C4, as stated, fails in binary64: the mean of three copies of a row
    whose fields are 0.1 is a row whose fields are 0.10000000000000002,
    since [0. + 0.1 + 0.1 + 0.1] rounds to 0.30000000000000004. *)
Lemma three_tenths_mean :
  NN_data.avg_runs (replicate 3 (flat_row 7 0.1)) "PPlus"
  = OK [flat_row 7 0.10000000000000002]
  ∧ flat_row 7 0.10000000000000002 ≠ flat_row 7 0.1.
Proof.
  split; [vm_compute; reflexivity|].
  intros H. apply (f_equal NN_data.FeatureRow.Energy) in H. cbn in H.
  apply (f_equal Prim2SF) in H. vm_compute in H. discriminate H.
Qed.

(** C6, as stated, fails: the empty table is averaged to the empty
    list, and nothing is raised. *)
Lemma empty_table_returns :
  NN_data.avg_runs [] "PPlus" = OK []
  ∧ forall e, NN_data.avg_runs [] "PPlus" ≠ Raise e.
Proof. split; [vm_compute; reflexivity | intros e; vm_compute; discriminate]. Qed.

(** A shower whose lengths differ and whose reads are all in range. *)
Lemma mismatched_lengths_witness :
  covers shower_surplus
  ∧ ¬ equal_lengths shower_surplus
  ∧ exists row, NN_data.shower_row shower_surplus = OK row.
Proof.
  assert (covers shower_surplus) as Hc by covered.
  split; [exact Hc|]. split.
  - intros (H & _). cbn in H. lia.
  - exact (proj1 (proj1 (mismatched_lengths shower_surplus) Hc)).
Defined.

(** C7, as stated, fails: a shower with one tank and two entries in
    every other sequence is turned into a row, and a shower with two
    tanks and one lateral distance raises [IndexError]. *)
Lemma unequal_lengths_unchecked :
  ¬ equal_lengths shower_surplus
  ∧ NN_data.shower_row shower_surplus
    = OK {| NN_data.FeatureRow.Run := 12; NN_data.FeatureRow.Energy := 7.5;
            NN_data.FeatureRow.Zen := 0.25; NN_data.FeatureRow.TimeDelay := 3;
            NN_data.FeatureRow.Q := 1; NN_data.FeatureRow.MuonVEM := 0.5;
            NN_data.FeatureRow.nMuons := 2; NN_data.FeatureRow.Type_ := "PPlus" |}
  ∧ ¬ equal_lengths shower_short
  ∧ NN_data.shower_row shower_short = Raise IndexError.
Proof.
  repeat apply conj.
  - intros (H & _). cbn in H. lia.
  - vm_compute. reflexivity.
  - intros (H & _). cbn in H. lia.
  - vm_compute. reflexivity.
Qed.

(** One call on empty globals leaves one row in [NNdata400]. *)
Lemma process_shower_effect_witness :
  neural_network_data.process_shower shower_AB no_globals
  = (OK (), snd (neural_network_data.process_shower shower_AB no_globals))
  ∧ exists row,
      neural_network_data.shower_row shower_AB = OK row
      ∧ neural_network_data.NNdata400
          (snd (neural_network_data.process_shower shower_AB no_globals))
        = [row].
Proof.
  assert (neural_network_data.process_shower shower_AB no_globals
          = (OK (), snd (neural_network_data.process_shower shower_AB no_globals)))
    as Hcall by (vm_compute; reflexivity).
  split; [exact Hcall|].
  exact (proj2 (proj1 (process_shower_effect shower_AB no_globals) _ _ Hcall)).
Defined.

(** C9, as stated, fails: a call of [process_shower] changes the
    module-level list [NNdata400]. *)
Lemma process_shower_changes_globals :
  neural_network_data.process_shower shower_AB no_globals
  = (OK (),
     {| neural_network_data.NNdata300 := [];
        neural_network_data.NNdata400 :=
          [ {| neural_network_data.FeatureRow.E_proton := 7.25;
               neural_network_data.FeatureRow.E_iron := 7.75;
               neural_network_data.FeatureRow.Zen := 0.25;
               neural_network_data.FeatureRow.Q400 := 1;
               neural_network_data.FeatureRow.MuonVEM := 0.5;
               neural_network_data.FeatureRow.nMuon := 2;
               neural_network_data.FeatureRow.Type_ := "PPlus" |} ] |})
  ∧ snd (neural_network_data.process_shower shower_AB no_globals) ≠ no_globals.
Proof.
  split; [vm_compute; reflexivity|].
  intros H. apply (f_equal (fun g => length (neural_network_data.NNdata400 g))) in H.
  vm_compute in H. discriminate H.
Qed.
End Evaluation.

(** * Further properties of the code *)

(** ** Batches of showers *)

Lemma for_each_collect_from {A B : Type} (h : A -> res B) (l : list A) (acc : list B) :
  for_each (fun acc0 x => row ← h x; mret (acc0 ++ [row])) l acc
  = rows ← for_each (fun acc0 x => row ← h x; mret (acc0 ++ [row])) l [];
    mret (acc ++ rows).
Proof.
  revert acc. induction l as [|x l IH]; intros acc; cbn.
  - by rewrite app_nil_r.
  - destruct (h x) as [row|e]; cbn; [|done].
    rewrite (IH (acc ++ [row])), (IH [row]).
    destruct (for_each _ l []) as [rows|e]; cbn; [|done].
    by rewrite <- app_assoc.
Qed.

Section Batches.
Context {N : Num}.

(** X1.  Processing a data set in two batches and joining the tables gives
    what processing it at once gives, exceptions included. *)
Theorem process_showers_app (showers1 showers2 : list Shower) :
  NN_data.process_showers (showers1 ++ showers2)
  = rows1 ← NN_data.process_showers showers1;
    rows2 ← NN_data.process_showers showers2;
    mret (rows1 ++ rows2).
Proof.
  unfold NN_data.process_showers. rewrite for_each_app.
  destruct (for_each _ showers1 []) as [rows1|e]; cbn; [|done].
  apply for_each_collect_from.
Qed.

(** X2.  [process_showers] fails as a whole: it raises exactly when the
    row of one of its showers cannot be built, whatever the other showers
    are, and what it raises is [IndexError]. *)
Theorem process_showers_raises (showers : list Shower) :
  (NN_data.process_showers showers = Raise IndexError
   <-> Exists (fun shower => NN_data.shower_row shower = Raise IndexError) showers)
  ∧ (forall e, NN_data.process_showers showers = Raise e -> e = IndexError).
Proof.
  assert (forall e, NN_data.process_showers showers = Raise e ->
            e = IndexError
            ∧ Exists (fun shower => NN_data.shower_row shower = Raise IndexError) showers)
    as Hraise.
  { intros e (shower & Hin & H)%for_each_collect_raise.
    assert (e = IndexError) as ->
      by (apply shower_row_raise, shower_sums_raise in H; by destruct H).
    split; [done|]. apply Exists_exists. eauto. }
  split; [split|].
  - intros H. by apply Hraise in H as [_ H].
  - intros Hex. destruct (NN_data.process_showers showers) as [rows|e] eqn:Hrows.
    + apply for_each_collect in Hrows as (rows' & _ & Hall).
      apply Exists_exists in Hex as (shower & Hin & Hrow).
      apply list_elem_of_lookup in Hin as [i Hi].
      destruct (Forall2_lookup_l _ _ _ _ _ Hall Hi) as (row & _ & Hok). congruence.
    + by destruct (Hraise e eq_refl) as [-> _].
  - intros e H. by apply Hraise in H as [-> _].
Qed.

(** X3.  A shower without a detector that passes the cut, a shower
    without any detector in particular, has all its sums at [0.]. *)
Theorem no_detector_selected (shower : Shower) :
  covers shower ->
  ((forall i, i < n_detectors shower -> passes_ge shower i = false) ->
   NN_data.shower_sums shower = OK no_sums)
  ∧ ((forall i, i < n_detectors shower -> passes_gt shower i = false) ->
     neural_network_data.shower_sums shower = OK no_sums400).
Proof.
  intros Hc.
  assert (forall passes : Shower -> nat -> bool,
            (forall i, i < n_detectors shower -> passes shower i = false) ->
            selected passes shower = []) as Hnone.
  { intros passes Hp. destruct (selected passes shower) as [|i l] eqn:Hsel; [done|].
    assert (i ∈ selected passes shower) as [Hi Hpi]%elem_of_selected
      by (rewrite Hsel; left).
    rewrite Hp in Hpi by done. discriminate. }
  split; intros Hp.
  - by rewrite shower_sums_covered, Hnone.
  - by rewrite shower_sums400_covered, Hnone.
Qed.
End Batches.

(** ** Signs of the sums in binary64 *)

Lemma for_each_invariant {A S : Type} (P : S -> Prop) (f : S -> A -> res S)
    (l : list A) (s s' : S) :
  P s -> (forall s0 x s1, P s0 -> f s0 x = OK s1 -> P s1) ->
  for_each f l s = OK s' -> P s'.
Proof.
  intros Hs Hstep. revert s Hs. induction l as [|x l IH]; intros s Hs; cbn.
  - by intros [= <-].
  - destruct (f s x) as [s1|e] eqn:Hf; cbn; [|discriminate]. eauto.
Qed.

(** The state that a body returned. *)
Ltac returned := cbv [mret res_ret]; intros [= <-].

(** A property of numbers that absolute values and charges in the band
    have, and that sums keep, holds of the time-delay sum and of the
    charge sums throughout the loops. *)
Section KeptBySums.
Context {N : Num} (P : num -> Prop).
Hypothesis P_add : forall x y, P x -> P y -> P (n_add x y).
Hypothesis P_abs : forall x, P (n_abs x).
Hypothesis P_band : forall x, in_band x = true -> P x.

Lemma detector_keeps (shower : Shower) (s : NN_data.sums) (i : nat) (s' : NN_data.sums) :
  P (NN_data.TimeDelay s) ∧ P (NN_data.Q s) ->
  NN_data.detector shower s i = OK s' ->
  P (NN_data.TimeDelay s') ∧ P (NN_data.Q s').
Proof using P_add P_abs P_band.
  intros [HT HQ]. unfold NN_data.detector.
  destruct (index (Signals.LatDist _) i) as [latDist|]; cbn; [|discriminate].
  destruct (n_ge latDist NN_data.cut_dist); cbn; [|by returned].
  destruct (index (Signals.TotalPE _) i) as [pe|]; cbn; [|discriminate].
  destruct (n_ne pe lit_0) eqn:Hpe; cbn; [|by returned].
  destruct (index (Signals.TotalVEM _) i) as [vem|]; cbn; [|discriminate].
  rewrite (n_div_guarded _ _ Hpe). cbn.
  destruct (index (Signals.MuonPE _) i) as [muonPE|]; cbn; [|discriminate].
  destruct (index (Signals.nMuons _) i) as [n|]; cbn; [|discriminate].
  destruct (n_ge vem lit_0_6 && n_le vem lit_2_0) eqn:Hband; [|by returned].
  destruct (index (Signals.TimeDelay _) i) as [td|]; cbn; [|discriminate].
  returned. cbn. split; apply P_add; auto.
Qed.

Lemma detector400_keeps (shower : Shower) (s : neural_network_data.sums) (i : nat)
    (s' : neural_network_data.sums) :
  P (neural_network_data.Q400 s) ->
  neural_network_data.detector shower s i = OK s' ->
  P (neural_network_data.Q400 s').
Proof using P_add P_band.
  intros HQ. unfold neural_network_data.detector.
  destruct (index (Signals.LatDist _) i) as [latDist|]; cbn; [|discriminate].
  destruct (n_gt latDist lit_400); cbn; [|by returned].
  destruct (index (Signals.TotalPE _) i) as [pe|]; cbn; [|discriminate].
  destruct (n_ne pe lit_0) eqn:Hpe; cbn; [|by returned].
  destruct (index (Signals.TotalVEM _) i) as [vem|]; cbn; [|discriminate].
  rewrite (n_div_guarded _ _ Hpe). cbn.
  destruct (index (Signals.MuonPE _) i) as [muonPE|]; cbn; [|discriminate].
  destruct (index (Signals.nMuons _) i) as [n|]; cbn; [|discriminate].
  destruct (n_ge vem lit_0_6 && n_le vem lit_2_0) eqn:Hband; [|by returned].
  returned. cbn. apply P_add; auto.
Qed.

Lemma shower_row_keeps (shower : Shower) (row : NN_data.FeatureRow.t) :
  P lit_0 -> NN_data.shower_row shower = OK row ->
  P (NN_data.FeatureRow.TimeDelay row) ∧ P (NN_data.FeatureRow.Q row).
Proof using P_add P_abs P_band.
  intros H0. unfold NN_data.shower_row.
  destruct (NN_data.shower_sums shower) as [s|e] eqn:Hs; cbn; [|discriminate].
  returned. cbn. unfold NN_data.shower_sums in Hs.
  refine (for_each_invariant
            (fun s0 => P (NN_data.TimeDelay s0) ∧ P (NN_data.Q s0)) _ _ _ _
            _ (detector_keeps shower) Hs).
  by split.
Qed.

Lemma shower_row400_keeps (shower : Shower) (row : neural_network_data.FeatureRow.t) :
  P lit_0 -> neural_network_data.shower_row shower = OK row ->
  P (neural_network_data.FeatureRow.Q400 row).
Proof using P_add P_band.
  intros H0. unfold neural_network_data.shower_row.
  destruct (neural_network_data.shower_sums shower) as [s|e] eqn:Hs; cbn; [|discriminate].
  returned. cbn. unfold neural_network_data.shower_sums in Hs.
  refine (for_each_invariant (fun s0 => P (neural_network_data.Q400 s0)) _ _ _ _
            _ (detector400_keeps shower) Hs).
  exact H0.
Qed.
End KeptBySums.

Section Signs.
#[local] Existing Instance binary64.
Open Scope float_scope.

Lemma SFadd_not_negative (x y : spec_float) :
  valid_binary x = true -> valid_binary y = true ->
  not_negative_SF x -> not_negative_SF y -> not_negative_SF (SFadd prec emax x y).
Proof.
  destruct x as [[] | [] | | [] mx ex], y as [[] | [] | | [] my ey]; try done.
  intros Hx%valid_exponent Hy%valid_exponent _ _.
  assert (positive_SF (SFadd prec emax (S754_finite false mx ex) (S754_finite false my ey)))
    as Hpos.
  { unfold SFadd, cond_Zopp, binary_normalize. simpl Z.add.
    apply binary_round_positive. lia. }
  destruct (SFadd _ _ _ _) as [| [] | | [] m e]; done.
Qed.

Lemma add_not_negative (x y : float) :
  not_negative_SF (Prim2SF x) -> not_negative_SF (Prim2SF y) ->
  not_negative_SF (Prim2SF (n_add x y)).
Proof.
  intros Hx Hy. change (@n_add binary64 x y) with (x + y). rewrite add_spec.
  apply SFadd_not_negative; try apply Prim2SF_valid; done.
Qed.

Lemma abs_not_negative (x : float) : not_negative_SF (Prim2SF (n_abs x)).
Proof.
  change (@n_abs binary64 x) with (abs x). rewrite abs_spec.
  destruct (Prim2SF x) as [[] | [] | | [] m e]; done.
Qed.

Lemma in_band_not_negative (x : float) :
  in_band x = true -> not_negative_SF (Prim2SF x).
Proof.
  unfold in_band. intros [Hlow _]%andb_prop.
  change (@n_ge binary64 x lit_0_6) with (0.6 <=? x) in Hlow.
  rewrite leb_spec in Hlow. change (Prim2SF 0.6) with
    (S754_finite false 5404319552844595 (-53)) in Hlow.
  destruct (Prim2SF x) as [[] | [] | | [] m e]; done.
Qed.

Lemma not_negative_ltb (x : float) :
  not_negative_SF (Prim2SF x) -> n_lt x lit_0 = false.
Proof.
  intros Hx. change (@n_lt binary64 x lit_0) with (x <? 0). rewrite ltb_spec.
  change (Prim2SF 0) with (S754_zero false).
  destruct (Prim2SF x) as [[] | [] | | [] m e]; done.
Qed.

(** X4.  In binary64 the time-delay sum and the charge sums of a row are
    never negative, whatever the signals are: the first adds absolute
    values and the others add charges of at least 0.6. *)
Theorem sums_not_negative (shower : Shower) :
  (forall row,
     NN_data.shower_row shower = OK row ->
     n_lt (NN_data.FeatureRow.TimeDelay row) lit_0 = false
     ∧ n_lt (NN_data.FeatureRow.Q row) lit_0 = false)
  ∧ (forall row,
       neural_network_data.shower_row shower = OK row ->
       n_lt (neural_network_data.FeatureRow.Q400 row) lit_0 = false).
Proof.
  split; intros row Hrow.
  - destruct (@shower_row_keeps binary64 (fun x : float => not_negative_SF (Prim2SF x))
                add_not_negative abs_not_negative in_band_not_negative
                shower row I Hrow) as [HT HQ].
    split; by apply not_negative_ltb.
  - apply not_negative_ltb.
    by apply (@shower_row400_keeps binary64 (fun x : float => not_negative_SF (Prim2SF x))
                add_not_negative in_band_not_negative shower row I Hrow).
Qed.
End Signs.

(** ** The two cuts *)

Section Cuts.
Context {N : Num}.

(** Where the two cuts select the same detectors, the two scripts compute
    the same charge and muon sums. *)
Lemma same_cut_same_sums (shower : Shower) :
  covers shower ->
  (forall i, i < n_detectors shower -> passes_gt shower i = passes_ge shower i) ->
  exists row row400,
    NN_data.shower_row shower = OK row
    ∧ neural_network_data.shower_row shower = OK row400
    ∧ neural_network_data.FeatureRow.Q400 row400 = NN_data.FeatureRow.Q row
    ∧ neural_network_data.FeatureRow.MuonVEM row400 = NN_data.FeatureRow.MuonVEM row
    ∧ neural_network_data.FeatureRow.nMuon row400 = NN_data.FeatureRow.nMuons row
    ∧ neural_network_data.FeatureRow.Zen row400 = NN_data.FeatureRow.Zen row
    ∧ neural_network_data.FeatureRow.Type_ row400 = NN_data.FeatureRow.Type_ row.
Proof.
  intros Hc Hsame. do 2 eexists.
  split; [by apply shower_row_covered|].
  split; [by apply shower_row400_covered|]. cbn.
  assert (selected passes_gt shower = selected passes_ge shower) as ->.
  { unfold selected. apply filter_ext_elem. intros i Hi%elem_of_seq.
    apply Hsame. lia. }
  rewrite foldl_include400_Q400, foldl_include400_MuonVEM, foldl_include400_nMuon.
  by rewrite foldl_include_Q, foldl_include_MuonVEM, foldl_include_nMuons.
Qed.
End Cuts.

Section Cuts64.
#[local] Existing Instance binary64.
Open Scope float_scope.

Lemma SFeqb_sym (x y : spec_float) : SFeqb x y = SFeqb y x.
Proof.
  unfold SFeqb, SFcompare.
  destruct x as [[] | [] | | [] mx ex], y as [[] | [] | | [] my ey]; try reflexivity.
  all: change (Pos.compare_cont Eq) with Pos.compare.
  all: rewrite (Z.compare_antisym ex ey), (Pos.compare_antisym mx my).
  all: destruct (ex ?= ey)%Z, (mx ?= my)%positive; reflexivity.
Qed.

Lemma SFleb_ltb_eqb (x y : spec_float) : SFleb x y = SFltb x y || SFeqb x y.
Proof. unfold SFleb, SFltb, SFeqb. destruct (SFcompare x y) as [[]|]; reflexivity. Qed.

(** In binary64, [x >= 400] is [x > 400 or x == 400]. *)
Lemma ge_gt_eq (x : float) : n_ge x lit_400 = n_gt x lit_400 || n_eq x lit_400.
Proof.
  change ((400 <=? x) = ((400 <? x) || (x =? 400))).
  rewrite leb_spec, ltb_spec, FloatAxioms.eqb_spec, (SFeqb_sym (Prim2SF x)).
  apply SFleb_ltb_eqb.
Qed.

(** X5.  In binary64 the cut [>= 400] of [NN_data.py] differs from the cut
    [> 400] of [neural_network_data.py] on the value 400 only; on a
    shower without a detector at exactly 400 the two scripts select the
    same detectors and their rows have the same charge sum, muon sums,
    zenith and label. *)
Theorem cuts_differ_at_400_only (shower : Shower) :
  covers shower ->
  (forall i, passes_ge shower i
             = passes_gt shower i
               || (n_eq (lateral_distance shower i) lit_400
                   && n_ne (total_PE shower i) lit_0))
  ∧ ((forall i, i < n_detectors shower ->
        n_eq (lateral_distance shower i) lit_400 = false) ->
     selected passes_gt shower = selected passes_ge shower
     ∧ exists row row400,
         NN_data.shower_row shower = OK row
         ∧ neural_network_data.shower_row shower = OK row400
         ∧ neural_network_data.FeatureRow.Q400 row400 = NN_data.FeatureRow.Q row
         ∧ neural_network_data.FeatureRow.MuonVEM row400 = NN_data.FeatureRow.MuonVEM row
         ∧ neural_network_data.FeatureRow.nMuon row400 = NN_data.FeatureRow.nMuons row
         ∧ neural_network_data.FeatureRow.Zen row400 = NN_data.FeatureRow.Zen row
         ∧ neural_network_data.FeatureRow.Type_ row400 = NN_data.FeatureRow.Type_ row).
Proof.
  intros Hc.
  assert (forall i, passes_ge shower i
            = passes_gt shower i
              || (n_eq (lateral_distance shower i) lit_400
                  && n_ne (total_PE shower i) lit_0)) as Hcut.
  { intros i. unfold passes_ge, passes_gt. rewrite ge_gt_eq.
    by destruct (n_gt _ _), (n_eq _ _), (n_ne _ _). }
  split; [exact Hcut|]. intros Hoff.
  assert (forall i, i < n_detectors shower -> passes_gt shower i = passes_ge shower i)
    as Hsame.
  { intros i Hi. rewrite Hcut, (Hoff i Hi). by rewrite orb_false_r. }
  split; [|by apply same_cut_same_sums].
  unfold selected. apply filter_ext_elem. intros i Hi%elem_of_seq. apply Hsame. lia.
Qed.
End Cuts64.

(** ** Averaging tables with different runs *)

Section Disjoint.
Context {N : Num}.

Lemma run_list_app (l1 l2 : list NN_data.FeatureRow.t) :
  NN_data.run_list (l1 ++ l2) = NN_data.run_list l1 ∪ NN_data.run_list l2.
Proof.
  apply set_eq. intros Run.
  by rewrite elem_of_union, !elem_of_run_list, fmap_app, elem_of_app.
Qed.

Lemma rows_of_run_absent (Run : Z) (l : list NN_data.FeatureRow.t) :
  Run ∉ NN_data.run_list l -> rows_of_run Run l = [].
Proof.
  intros Hnot. unfold rows_of_run.
  destruct (filter _ l) as [|row l'] eqn:Hf; [done|].
  assert (row ∈ filter (fun row => NN_data.FeatureRow.Run row = Run) l) as [HRun Hin]%list_elem_of_filter
    by (rewrite Hf; left).
  destruct Hnot. apply elem_of_run_list, list_elem_of_fmap. eauto.
Qed.

Lemma mean_row_app_l (l1 l2 : list NN_data.FeatureRow.t) (Type_ : string) (Run : Z) :
  Run ∉ NN_data.run_list l2 ->
  mean_row (l1 ++ l2) Type_ Run = mean_row l1 Type_ Run.
Proof.
  intros Hnot. unfold mean_row, rows_of_run. rewrite filter_app.
  fold (rows_of_run Run l2). by rewrite rows_of_run_absent, app_nil_r.
Qed.

Lemma mean_row_app_r (l1 l2 : list NN_data.FeatureRow.t) (Type_ : string) (Run : Z) :
  Run ∉ NN_data.run_list l1 ->
  mean_row (l1 ++ l2) Type_ Run = mean_row l2 Type_ Run.
Proof.
  intros Hnot. unfold mean_row, rows_of_run. rewrite filter_app.
  fold (rows_of_run Run l1). by rewrite rows_of_run_absent.
Qed.

(** X6.  When two tables share no run number, averaging their
    concatenation gives the averaged rows of the one and of the other:
    the rows of a run are averaged on their own. *)
Theorem avg_runs_app_disjoint (List1 List2 : list NN_data.FeatureRow.t) (Type_ : string) :
  counts N ->
  (forall row1 row2, row1 ∈ List1 -> row2 ∈ List2 ->
     NN_data.FeatureRow.Run row1 ≠ NN_data.FeatureRow.Run row2) ->
  exists avg avg1 avg2,
    NN_data.avg_runs (List1 ++ List2) Type_ = OK avg
    ∧ NN_data.avg_runs List1 Type_ = OK avg1
    ∧ NN_data.avg_runs List2 Type_ = OK avg2
    ∧ avg ≡ₚ avg1 ++ avg2.
Proof.
  intros Hcount Hdisj. do 3 eexists.
  do 3 (split; [by apply avg_runs_means|]).
  assert (NN_data.run_list List1 ## NN_data.run_list List2) as Hsets.
  { intros Run (row1 & -> & H1)%elem_of_run_list%list_elem_of_fmap
      (row2 & Heq & H2)%elem_of_run_list%list_elem_of_fmap.
    by eapply Hdisj. }
  rewrite run_list_app, (elements_disj_union _ _ Hsets), fmap_app.
  apply Permutation_app; apply reflexive_eq, list_fmap_ext.
  - intros i Run HRun%list_elem_of_lookup_2%elem_of_elements.
    apply mean_row_app_l. intros HRun'. by eapply Hsets.
  - intros i Run HRun%list_elem_of_lookup_2%elem_of_elements.
    apply mean_row_app_r. intros HRun'. by eapply Hsets.
Qed.
End Disjoint.

(** ** The loops over the data sets in neural_network_data.py *)

Section Accumulator.
Context {N : Num}.
Implicit Types (g : neural_network_data.globals) (showers : list Shower).

Lemma process_all_app showers1 showers2 g :
  neural_network_data.process_all (showers1 ++ showers2) g
  = match neural_network_data.process_all showers1 g with
    | (OK _, g') => neural_network_data.process_all showers2 g'
    | (Raise e, g') => (Raise e, g')
    end.
Proof.
  revert g. induction showers1 as [|shower showers1 IH]; intros g; cbn; [done|].
  destruct (neural_network_data.process_shower shower g) as [[[]|e] g']; [apply IH | done].
Qed.

Lemma process_all_NNdata300 showers g r g' :
  neural_network_data.process_all showers g = (r, g') ->
  neural_network_data.NNdata300 g' = neural_network_data.NNdata300 g.
Proof.
  revert g. induction showers as [|shower showers IH]; intros g; cbn.
  - by intros [= _ <-].
  - unfold neural_network_data.process_shower.
    destruct (neural_network_data.shower_row shower) as [row|e].
    + intros H%IH. exact H.
    + by intros [= _ <-].
Qed.

Lemma process_all_returns showers g g' :
  neural_network_data.process_all showers g = (OK (), g')
  <-> exists rows,
        Forall2 (fun shower row => neural_network_data.shower_row shower = OK row)
          showers rows
        ∧ g' = {| neural_network_data.NNdata300 := neural_network_data.NNdata300 g;
                  neural_network_data.NNdata400 := neural_network_data.NNdata400 g ++ rows |}.
Proof.
  revert g. induction showers as [|shower showers IH]; intros g; cbn.
  - split.
    + intros [= <-]. exists []. split; [constructor|]. rewrite app_nil_r. by destruct g.
    + intros (rows & ->%Forall2_nil_inv_l & ->). rewrite app_nil_r. by destruct g.
  - unfold neural_network_data.process_shower.
    destruct (neural_network_data.shower_row shower) as [row|e] eqn:Hrow.
    + rewrite IH. cbn. split.
      * intros (rows & Hrows & ->). exists (row :: rows).
        split; [by constructor | by rewrite <- app_assoc].
      * intros (rows & (row' & rows' & Hrow' & Hrows & ->)%Forall2_cons_inv_l & ->).
        assert (row' = row) as -> by congruence.
        exists rows'. split; [done | by rewrite <- app_assoc].
    + split; [discriminate|].
      intros (rows & (row' & rows' & Hrow' & _)%Forall2_cons_inv_l & _). congruence.
Qed.

(** X7.  A loop over a data set that raises leaves in [NNdata400] the
    rows of the showers before the failing one: it raises [e] with final
    globals [g'] exactly when some shower raises [e], every shower before
    it has a row, and [g'] holds these rows appended in order. *)
Theorem process_all_raises showers g (e : exn) g' :
  neural_network_data.process_all showers g = (Raise e, g')
  <-> exists before shower after rows,
        showers = before ++ shower :: after
        ∧ Forall2 (fun shower0 row => neural_network_data.shower_row shower0 = OK row)
            before rows
        ∧ neural_network_data.shower_row shower = Raise e
        ∧ g' = {| neural_network_data.NNdata300 := neural_network_data.NNdata300 g;
                  neural_network_data.NNdata400 := neural_network_data.NNdata400 g ++ rows |}.
Proof.
  revert g. induction showers as [|shower0 showers IH]; intros g; cbn.
  - split; [discriminate|]. intros (before & shower & after & rows & Heq & _).
    by destruct before.
  - unfold neural_network_data.process_shower.
    destruct (neural_network_data.shower_row shower0) as [row0|e0] eqn:Hrow0.
    + rewrite IH. cbn. split.
      * intros (before & shower & after & rows & -> & Hrows & Hraise & ->).
        exists (shower0 :: before), shower, after, (row0 :: rows).
        repeat split; [by constructor | done | by rewrite <- app_assoc].
      * intros (before & shower & after & rows & Heq & Hrows & Hraise & ->).
        destruct before as [|shower1 before]; cbn in Heq; injection Heq as <- ->;
          [congruence|].
        apply Forall2_cons_inv_l in Hrows as (row1 & rows' & Hrow1 & Hrows & ->).
        assert (row1 = row0) as -> by congruence.
        exists before, shower, after, rows'.
        repeat split; [done.. | by rewrite <- app_assoc].
    + split.
      * intros [= <- <-]. exists [], shower0, showers, [].
        repeat split; [constructor | done |]. rewrite app_nil_r. by destruct g.
      * intros (before & shower & after & rows & Heq & Hrows & Hraise & ->).
        destruct before as [|shower1 before]; cbn in Heq; injection Heq as <- ->.
        -- apply Forall2_nil_inv_l in Hrows as ->. rewrite app_nil_r.
           assert (e0 = e) as -> by congruence. by destruct g.
        -- apply Forall2_cons_inv_l in Hrows as (row1 & _ & Hrow1 & _). congruence.
Qed.

(** X8.  The script of [neural_network_data.py] runs its two loops as one
    loop over the proton showers followed by the iron showers.  It never
    writes [NNdata300], and it completes exactly when every shower has a
    row; [NNdata400], which it then saves, holds the proton rows followed
    by the iron rows, in the order of the data. *)
Theorem neural_network_data_script_saves (protondata irondata : list Shower) :
  neural_network_data_script protondata irondata
  = neural_network_data.process_all (protondata ++ irondata)
      {| neural_network_data.NNdata300 := []; neural_network_data.NNdata400 := [] |}
  ∧ (forall r g', neural_network_data_script protondata irondata = (r, g') ->
       neural_network_data.NNdata300 g' = [])
  ∧ (forall g',
       neural_network_data_script protondata irondata = (OK (), g')
       <-> exists proton_rows iron_rows,
             Forall2 (fun shower row => neural_network_data.shower_row shower = OK row)
               protondata proton_rows
             ∧ Forall2 (fun shower row => neural_network_data.shower_row shower = OK row)
                 irondata iron_rows
             ∧ g' = {| neural_network_data.NNdata300 := [];
                       neural_network_data.NNdata400 := proton_rows ++ iron_rows |}).
Proof.
  assert (neural_network_data_script protondata irondata
          = neural_network_data.process_all (protondata ++ irondata)
              {| neural_network_data.NNdata300 := [];
                 neural_network_data.NNdata400 := [] |}) as Hone.
  { unfold neural_network_data_script. rewrite process_all_app.
    by destruct (neural_network_data.process_all protondata _) as [[[]|e] g]. }
  split; [exact Hone|]. rewrite Hone. split.
  - intros r g' H%process_all_NNdata300. exact H.
  - intros g'. rewrite process_all_returns. cbn. split.
    + intros (rows & (rp & ri & Hp & Hi & ->)%Forall2_app_inv_l & ->). eauto 6.
    + intros (rp & ri & Hp & Hi & ->). exists (rp ++ ri).
      split; [by apply Forall2_app | done].
Qed.
End Accumulator.

(** ** The script of NN_data.py *)

Section Script.
Context {N : Num}.

Lemma shower_row_Run (shower : Shower) (row : NN_data.FeatureRow.t) :
  NN_data.shower_row shower = OK row ->
  NN_data.FeatureRow.Run row = Run shower
  ∧ NN_data.FeatureRow.Type_ row = Primary.Type_ (Primary shower).
Proof.
  unfold NN_data.shower_row.
  destruct (NN_data.shower_sums shower) as [s|e]; cbn; [|discriminate].
  by returned.
Qed.

Lemma rows_Run (showers : list Shower) (rows : list NN_data.FeatureRow.t) :
  Forall2 (fun shower row => NN_data.shower_row shower = OK row) showers rows ->
  NN_data.FeatureRow.Run <$> rows = Run <$> showers.
Proof.
  induction 1 as [|shower row showers rows Hrow _ IH]; [done|]. cbn.
  apply shower_row_Run in Hrow as [-> _]. by rewrite IH.
Qed.

Lemma process_showers_covered (showers : list Shower) :
  Forall covers showers -> exists rows, NN_data.process_showers showers = OK rows.
Proof.
  intros Hc.
  assert (exists rows,
            Forall2 (fun shower row => NN_data.shower_row shower = OK row) showers rows)
    as [rows Hrows].
  { induction Hc as [|shower showers Hshower _ [rows IH]]; [by exists []|].
    eexists (_ :: rows). constructor; [by apply shower_row_covered | done]. }
  exists rows. apply for_each_collect. by exists rows.
Qed.

Lemma avg_runs_table (List_ : list NN_data.FeatureRow.t) (Type_ : string) (avgList : list NN_data.FeatureRow.t) :
  NN_data.avg_runs List_ Type_ = OK avgList ->
  NN_data.FeatureRow.Run <$> avgList ≡ₚ distinct_runs List_
  ∧ Forall (fun row => NN_data.FeatureRow.Type_ row = Type_) avgList.
Proof.
  intros (rows & -> & Hrows)%for_each_collect. cbn.
  assert (Forall2 (fun Run row => NN_data.FeatureRow.Run row = Run
                                  ∧ NN_data.FeatureRow.Type_ row = Type_)
            (elements (NN_data.run_list List_)) rows) as Hfields.
  { eapply Forall2_impl; [exact Hrows|]. intros Run row.
    unfold NN_data.run_avg, n_div.
    destruct (n_eq _ lit_0); cbn; [discriminate|]. by returned. }
  split.
  - rewrite <- elements_run_list.
    apply reflexive_eq. clear Hrows.
    induction Hfields as [|Run row runs rows [HRun _] _ IH]; [done|]. cbn.
    by rewrite HRun, IH.
  - clear Hrows. induction Hfields as [|Run row runs rows [_ HT] _ IH]; by constructor.
Qed.

(** X9.  When the script of [NN_data.py] has built its four tables, the
    per-shower tables hold the row of each shower in order, each averaged
    table has one row per distinct run number of its own data set, and
    the averaged rows are labelled ["PPlus"] and ["Fe56Nucleus"] whatever
    the primary types of the showers are; a run number present in both
    data sets is averaged once in each.  The script builds the tables
    whenever all reads are in range, and can raise [IndexError] only. *)
Theorem NN_data_script_tables (protondata irondata : list Shower) :
  counts N ->
  (forall t,
     NN_data_script protondata irondata = OK t ->
     Forall2 (fun shower row => NN_data.shower_row shower = OK row)
       protondata (NNdata_proton t)
     ∧ Forall2 (fun shower row => NN_data.shower_row shower = OK row)
         irondata (NNdata_iron t)
     ∧ NN_data.FeatureRow.Run <$> NNdata_proton_avg t ≡ₚ remove_dups (Run <$> protondata)
     ∧ NN_data.FeatureRow.Run <$> NNdata_iron_avg t ≡ₚ remove_dups (Run <$> irondata)
     ∧ Forall (fun row => NN_data.FeatureRow.Type_ row = "PPlus") (NNdata_proton_avg t)
     ∧ Forall (fun row => NN_data.FeatureRow.Type_ row = "Fe56Nucleus") (NNdata_iron_avg t))
  ∧ (Forall covers protondata -> Forall covers irondata ->
     exists t, NN_data_script protondata irondata = OK t)
  ∧ (forall e, NN_data_script protondata irondata = Raise e -> e = IndexError).
Proof.
  intros Hcount.
  assert (forall showers e, NN_data.process_showers showers = Raise e -> e = IndexError)
    as Hraise.
  { intros showers e (shower & _ & H)%for_each_collect_raise.
    apply shower_row_raise, shower_sums_raise in H. by destruct H. }
  unfold NN_data_script. repeat apply conj.
  - intros t.
    destruct (NN_data.process_showers protondata) as [rp|e] eqn:Hp; cbn; [|discriminate].
    destruct (NN_data.avg_runs rp "PPlus") as [ap|e] eqn:Hap; cbn; [|discriminate].
    destruct (NN_data.process_showers irondata) as [ri|e] eqn:Hi; cbn; [|discriminate].
    destruct (NN_data.avg_runs ri "Fe56Nucleus") as [ai|e] eqn:Hai; cbn; [|discriminate].
    returned. cbn.
    apply for_each_collect in Hp as (rp' & -> & Hp), Hi as (ri' & -> & Hi). cbn in *.
    apply avg_runs_table in Hap as [Hap1 Hap2], Hai as [Hai1 Hai2].
    unfold distinct_runs in Hap1, Hai1.
    rewrite (rows_Run _ _ Hp) in Hap1. rewrite (rows_Run _ _ Hi) in Hai1. done.
  - intros Hcp Hci.
    destruct (process_showers_covered _ Hcp) as [rp ->].
    destruct (process_showers_covered _ Hci) as [ri ->]. cbn.
    rewrite !avg_runs_means by done. cbn. eauto.
  - intros e.
    destruct (NN_data.process_showers protondata) as [rp|e1] eqn:Hp; cbn;
      [|intros [= <-]; by eapply Hraise].
    rewrite avg_runs_means by done. cbn.
    destruct (NN_data.process_showers irondata) as [ri|e2] eqn:Hi; cbn;
      [|intros [= <-]; by eapply Hraise].
    rewrite avg_runs_means by done. discriminate.
Qed.
End Script.

(** ** Surplus entries *)

Section Surplus.
Context {N : Num}.

Lemma at_take (l : list num) (n i : nat) : i < n -> at_ (take n l) i = at_ l i.
Proof. intros Hi. unfold at_. by rewrite lookup_take_lt. Qed.

(** X10.  Entries past [len(Tank)] are never read: a shower whose
    sequences are long enough has the rows of the shower cut down to
    sequences of equal length. *)
Theorem surplus_ignored (shower : Shower) :
  covers shower ->
  equal_lengths (truncated shower)
  ∧ NN_data.shower_row (truncated shower) = NN_data.shower_row shower
  ∧ neural_network_data.shower_row (truncated shower)
    = neural_network_data.shower_row shower.
Proof.
  intros Hc.
  assert (equal_lengths (truncated shower)) as Heq.
  { destruct Hc as (H1 & H2 & H3 & H4 & H5 & H6).
    unfold equal_lengths, truncated, n_detectors in *. cbn.
    rewrite !length_take. repeat split; lia. }
  assert (covers (truncated shower)) as Hc'.
  { destruct Heq as (H1 & H2 & H3 & H4 & H5 & H6).
    unfold covers. rewrite H1, H2, H3, H4, H5, H6. done. }
  assert (forall passes, same_selected passes shower (truncated shower)) as Hsame.
  { intros passes. split; [done|].
    unfold lateral_distance, total_PE, total_VEM, muon_PE, muon_count, time_delay,
      truncated. cbn.
    split; intros i Hi; [|intros _]; by rewrite !at_take. }
  split; [exact Heq|]. split.
  - unfold NN_data.shower_row. by rewrite (same_selected_sums shower).
  - unfold neural_network_data.shower_row. by rewrite (same_selected_sums400 shower).
Qed.
End Surplus.

(** ** Signals that are not numbers *)

Section NotANumber.
#[local] Existing Instance binary64.
Open Scope float_scope.

Lemma SFeqb_refl (x : spec_float) : x ≠ S754_nan -> SFeqb x x = true.
Proof.
  unfold SFeqb, SFcompare.
  destruct x as [[] | [] | | [] m e]; try done; intros _;
    change (Pos.compare_cont Eq) with Pos.compare;
    by rewrite Z.compare_refl, Pos.compare_refl.
Qed.

Lemma is_nan_SF (x : float) : is_nan x <-> Prim2SF x = S754_nan.
Proof.
  unfold is_nan. change (@n_eq binary64 x x) with (x =? x).
  rewrite FloatAxioms.eqb_spec. split.
  - intros H. destruct (Prim2SF x) eqn:Hx; try done; by rewrite SFeqb_refl in H.
  - by intros ->.
Qed.

Lemma add_nan_l (x y : float) : is_nan x -> is_nan (n_add x y).
Proof.
  rewrite !is_nan_SF. change (@n_add binary64 x y) with (x + y).
  rewrite add_spec. by intros ->.
Qed.

Lemma add_nan_r (x y : float) : is_nan y -> is_nan (n_add x y).
Proof.
  rewrite !is_nan_SF. change (@n_add binary64 x y) with (x + y).
  rewrite add_spec. intros ->. by destruct (Prim2SF x) as [[] | [] | | [] m e].
Qed.

Lemma mul_nan_l (x y : float) : is_nan x -> is_nan (n_mul x y).
Proof.
  rewrite !is_nan_SF. change (@n_mul binary64 x y) with (x * y).
  rewrite mul_spec. by intros ->.
Qed.

Lemma quot_nan_r (x y : float) : is_nan y -> is_nan (n_quot x y).
Proof.
  rewrite !is_nan_SF. change (@n_quot binary64 x y) with (x / y).
  rewrite div_spec. intros ->. by destruct (Prim2SF x) as [[] | [] | | [] m e].
Qed.

Lemma nan_not_compared (x y : @num binary64) :
  is_nan x -> n_ge x y = false ∧ n_gt x y = false ∧ n_ne x y = true.
Proof.
  rewrite is_nan_SF. intros Hx.
  change ((y <=? x) = false ∧ (y <? x) = false ∧ negb (x =? y) = true).
  rewrite leb_spec, ltb_spec, FloatAxioms.eqb_spec, Hx.
  by destruct (Prim2SF y) as [[] | [] | | [] m e].
Qed.

Lemma foldl_add_nan (a : float) (l : list float) :
  is_nan a ∨ (exists x, x ∈ l ∧ is_nan x) -> is_nan (foldl n_add a l).
Proof.
  revert a. induction l as [|y l IH]; intros a [Ha|(x & Hx & Hnan)]; cbn.
  - done.
  - by apply elem_of_nil in Hx.
  - apply IH. left. by apply add_nan_l.
  - apply IH. apply elem_of_cons in Hx as [->|Hx].
    + left. by apply add_nan_r.
    + right. eauto.
Qed.

(** X11.  In binary64 a detector whose lateral distance is not a number
    is never selected; but the test [TotalPE[i] != 0] lets a photoelectron
    count that is not a number through, and one such detector beyond the
    cut makes the scaled muon sum of the row not a number. *)
Theorem signals_not_a_number (shower : Shower) (i : nat) :
  covers shower -> i < n_detectors shower ->
  (is_nan (lateral_distance shower i) ->
   passes_ge shower i = false ∧ passes_gt shower i = false)
  ∧ (is_nan (total_PE shower i) ->
     (n_ge (lateral_distance shower i) lit_400 = true ->
      exists row, NN_data.shower_row shower = OK row
                  ∧ is_nan (NN_data.FeatureRow.MuonVEM row))
     ∧ (n_gt (lateral_distance shower i) lit_400 = true ->
        exists row, neural_network_data.shower_row shower = OK row
                    ∧ is_nan (neural_network_data.FeatureRow.MuonVEM row))).
Proof.
  intros Hc Hi. split.
  - intros (Hge & Hgt & _)%(nan_not_compared _ lit_400).
    unfold passes_ge, passes_gt. by rewrite Hge, Hgt.
  - intros Hpe.
    assert (is_nan (scaled_muon_PE shower i)) as Hscaled
      by by apply mul_nan_l, quot_nan_r.
    destruct (nan_not_compared _ lit_0 Hpe) as (_ & _ & Hne).
    split; intros Hcut; eexists.
    + split; [by apply shower_row_covered|]. cbn.
      rewrite foldl_include_MuonVEM. apply foldl_add_nan. right.
      exists (scaled_muon_PE shower i). split; [|done].
      apply list_elem_of_fmap. exists i. split; [done|].
      apply elem_of_selected. split; [done|]. unfold passes_ge. by rewrite Hcut, Hne.
    + split; [by apply shower_row400_covered|]. cbn.
      rewrite foldl_include400_MuonVEM. apply foldl_add_nan. right.
      exists (scaled_muon_PE shower i). split; [|done].
      apply list_elem_of_fmap. exists i. split; [done|].
      apply elem_of_selected. split; [done|]. unfold passes_gt. by rewrite Hcut, Hne.
Qed.
End NotANumber.

(** ** Labels of the rows *)

Lemma for_each_ext {A S : Type} (f f' : S -> A -> res S) (l : list A) (s : S) :
  (forall s0 x, f s0 x = f' s0 x) -> for_each f l s = for_each f' l s.
Proof.
  intros Hf. revert s. induction l as [|x l IH]; intros s; cbn; [done|].
  rewrite Hf. destruct (f' s x) as [s1|e]; cbn; [apply IH | done].
Qed.

Section Labels.
Context {N : Num}.

Lemma run_list_relabel (label : NN_data.FeatureRow.t -> string) (List_ : list NN_data.FeatureRow.t) :
  NN_data.run_list ((fun row => relabel (label row) row) <$> List_)
  = NN_data.run_list List_.
Proof.
  unfold NN_data.run_list. generalize (∅ : gset Z).
  induction List_ as [|row l IH]; intros runs; cbn; [done | apply IH].
Qed.

Lemma run_totals_relabel (label : NN_data.FeatureRow.t -> string) (List_ : list NN_data.FeatureRow.t)
    (Run : Z) :
  NN_data.run_totals ((fun row => relabel (label row) row) <$> List_) Run
  = NN_data.run_totals List_ Run.
Proof.
  unfold NN_data.run_totals.
  generalize ({| NN_data.nShowers := lit_0; NN_data.Energy_tot := lit_0;
                 NN_data.Zen_tot := lit_0; NN_data.TimeDelay_tot := lit_0;
                 NN_data.Q_tot := lit_0; NN_data.MuonVEM_tot := lit_0;
                 NN_data.nMuons_tot := lit_0 |}).
  induction List_ as [|row l IH]; intros t; cbn; [done | apply IH].
Qed.

(** X12.  [avg_runs] never reads the label of a row: changing the labels
    of the rows of a table in any way leaves its result unchanged. *)
Theorem avg_runs_ignores_labels (List_ : list NN_data.FeatureRow.t)
    (label : NN_data.FeatureRow.t -> string) (Type_ : string) :
  NN_data.avg_runs ((fun row => relabel (label row) row) <$> List_) Type_
  = NN_data.avg_runs List_ Type_.
Proof.
  unfold NN_data.avg_runs. rewrite run_list_relabel.
  apply for_each_ext. intros avgList Run.
  unfold NN_data.run_avg. by rewrite run_totals_relabel.
Qed.
End Labels.

(** ** The further properties on sample records *)

Section MoreEvaluation.
#[local] Existing Instance binary64.
Open Scope float_scope.

Ltac in_range := repeat split; cbn; lia.

(** A table is not built when one shower of the data set is too short. *)
Lemma process_showers_raises_witness :
  NN_data.process_showers [shower_AB; shower_short; shower_above_band]
  = Raise IndexError.
Proof.
  apply (proj1 (process_showers_raises [shower_AB; shower_short; shower_above_band])).
  apply Exists_cons_tl, Exists_cons_hd. vm_compute. reflexivity.
Defined.

(** The detector at 300 is selected by neither script. *)
Lemma no_detector_selected_witness :
  covers shower_below_cut
  ∧ NN_data.shower_sums shower_below_cut = OK no_sums
  ∧ neural_network_data.shower_sums shower_below_cut = OK no_sums400.
Proof.
  assert (covers shower_below_cut) as Hc by in_range.
  destruct (no_detector_selected shower_below_cut Hc) as [Hge Hgt].
  split; [exact Hc|]. split.
  - apply Hge. intros [|i] Hi; [vm_compute; reflexivity | cbn in Hi; lia].
  - apply Hgt. intros [|i] Hi; [vm_compute; reflexivity | cbn in Hi; lia].
Defined.

(** The time-delay sum and the charge sum of the shower of A and B. *)
Lemma sums_not_negative_witness :
  NN_data.shower_row shower_AB
  = OK {| NN_data.FeatureRow.Run := 12; NN_data.FeatureRow.Energy := 7.5;
          NN_data.FeatureRow.Zen := 0.25; NN_data.FeatureRow.TimeDelay := 3;
          NN_data.FeatureRow.Q := 1; NN_data.FeatureRow.MuonVEM := 0.5;
          NN_data.FeatureRow.nMuons := 2; NN_data.FeatureRow.Type_ := "PPlus" |}
  ∧ (3 <? 0) = false ∧ (1 <? 0) = false.
Proof.
  assert (NN_data.shower_row shower_AB
          = OK {| NN_data.FeatureRow.Run := 12; NN_data.FeatureRow.Energy := 7.5;
                  NN_data.FeatureRow.Zen := 0.25; NN_data.FeatureRow.TimeDelay := 3;
                  NN_data.FeatureRow.Q := 1; NN_data.FeatureRow.MuonVEM := 0.5;
                  NN_data.FeatureRow.nMuons := 2; NN_data.FeatureRow.Type_ := "PPlus" |}) as Hrow
    by (vm_compute; reflexivity).
  split; [exact Hrow|].
  exact (proj1 (sums_not_negative shower_AB) _ Hrow).
Defined.

(** No detector of the shower of A and B is at 400: the scripts agree. *)
Lemma cuts_differ_at_400_only_witness :
  covers shower_AB
  ∧ selected passes_gt shower_AB = selected passes_ge shower_AB.
Proof.
  assert (covers shower_AB) as Hc by in_range.
  split; [exact Hc|].
  apply (proj2 (cuts_differ_at_400_only shower_AB Hc)).
  intros [|[|i]] Hi; [vm_compute; reflexivity.. | cbn in Hi; lia].
Defined.

(** A table of run 1 and a table of run 2. *)
Lemma avg_runs_app_disjoint_witness :
  counts binary64
  ∧ exists avg avg1 avg2,
      NN_data.avg_runs ([flat_row 1 0.1; flat_row 1 3] ++ [flat_row 2 1]) "PPlus" = OK avg
      ∧ NN_data.avg_runs [flat_row 1 0.1; flat_row 1 3] "PPlus" = OK avg1
      ∧ NN_data.avg_runs [flat_row 2 1] "PPlus" = OK avg2
      ∧ avg ≡ₚ avg1 ++ avg2.
Proof.
  split; [exact binary64_counts|].
  apply (avg_runs_app_disjoint _ _ _ binary64_counts).
  intros row1 row2 H1 H2.
  apply list_elem_of_singleton in H2 as ->.
  apply elem_of_cons in H1 as [->|H1]; [discriminate|].
  apply list_elem_of_singleton in H1 as ->. discriminate.
Defined.

(** One proton shower and one iron shower. *)
Lemma NN_data_script_tables_witness :
  counts binary64
  ∧ Forall covers [shower_AB] ∧ Forall covers [shower_above_band]
  ∧ exists t, NN_data_script [shower_AB] [shower_above_band] = OK t.
Proof.
  assert (Forall covers [shower_AB]) as Hp by (repeat constructor; cbn; lia).
  assert (Forall covers [shower_above_band]) as Hi by (repeat constructor; cbn; lia).
  split; [exact binary64_counts|]. split; [exact Hp|]. split; [exact Hi|].
  exact (proj1 (proj2 (NN_data_script_tables [shower_AB] [shower_above_band]
                         binary64_counts)) Hp Hi).
Defined.

(** The shower with one tank and two entries in the other sequences. *)
Lemma surplus_ignored_witness :
  covers shower_surplus
  ∧ ¬ equal_lengths shower_surplus
  ∧ equal_lengths (truncated shower_surplus)
  ∧ NN_data.shower_row (truncated shower_surplus) = NN_data.shower_row shower_surplus.
Proof.
  assert (covers shower_surplus) as Hc by in_range.
  destruct (surplus_ignored shower_surplus Hc) as (Heq & Hrow & _).
  split; [exact Hc|]. split; [|split; [exact Heq | exact Hrow]].
  intros (H & _). cbn in H. lia.
Defined.

(** A photoelectron count that is not a number, at 500. *)
Lemma signals_not_a_number_witness :
  covers shower_nan_PE
  ∧ is_nan (total_PE shower_nan_PE 0%nat)
  ∧ exists row,
      NN_data.shower_row shower_nan_PE = OK row ∧ is_nan (NN_data.FeatureRow.MuonVEM row).
Proof.
  assert (covers shower_nan_PE) as Hc by in_range.
  assert (is_nan (total_PE shower_nan_PE 0%nat)) as Hnan by (vm_compute; reflexivity).
  split; [exact Hc|]. split; [exact Hnan|].
  apply (proj1 (proj2 (signals_not_a_number shower_nan_PE 0%nat Hc
                         ltac:(cbn; lia)) Hnan)).
  vm_compute. reflexivity.
Defined.
End MoreEvaluation.
